(** * PSNL (Proxmox Scheduled Network Limiter): a shallow embedding of
    [src/index.ts] and the properties of its interface codec, control-plane
    client, trigger action and trigger registration.

    Conventions of the embedding.
    - A JavaScript string is a [string]; the separators the program splits on
      ([","], ["="], [":"]) are single characters.
    - A JavaScript number that the program handles (a rate, a guest id, an
      HTTP status) is an integer [Z]; [Number_toString] is the decimal
      rendering that [Number.prototype.toString] gives on integers in the
      safe range.  Fractional numbers and [NaN] are outside the model.
    - An object used as a string-to-string dictionary ([NetworkInterface]) is
      the list of its own properties in the order [Object.entries]
      enumerates them.
    - Code that throws, calls the remote API or writes to the console runs in
      the monad [M]: a state (the remote world and the console output so
      far) is threaded through, and a computation ends in a value or in a
      thrown exception.  The [await]s of one trigger action follow one
      another; the interleaving of the actions of several triggers is not
      modelled. *)

From Stdlib Require Import ZArith Ascii String.
From Stdlib Require Import DecimalString DecimalPos DecimalZ.
From stdpp Require Import gmap strings list.

(** ** JavaScript strings *)

(** [s.split(sep)] for a one-character separator: the pieces between the
    occurrences of [sep], always at least one piece. *)
Fixpoint split (sep : ascii) (s : string) : list string :=
  match s with
  | EmptyString => [EmptyString]
  | String c r =>
      if bool_decide (c = sep) then EmptyString :: split sep r
      else match split sep r with
           | p :: ps => String c p :: ps
           | [] => [String c EmptyString]
           end
  end.

(** [pieces.join(sep)]. *)
Fixpoint join (sep : string) (pieces : list string) : string :=
  match pieces with
  | [] => ""
  | p :: ps =>
      match ps with
      | [] => p
      | _ :: _ => p +:+ sep +:+ join sep ps
      end
  end.

(** Whether the character [c] occurs in [s]. *)
Fixpoint contains (c : ascii) (s : string) : bool :=
  match s with
  | EmptyString => false
  | String c' r => bool_decide (c' = c) || contains c r
  end.

(** The text of [s] before the first [c] (all of [s] when [c] does not
    occur), and the text after the first [c] ([None] when [c] does not
    occur).  These two are not used by the program: they are the vocabulary
    in which what [split] and destructuring compute is stated. *)
Fixpoint before_first (c : ascii) (s : string) : string :=
  match s with
  | EmptyString => EmptyString
  | String c' r => if bool_decide (c' = c) then EmptyString
                   else String c' (before_first c r)
  end.

Fixpoint after_first (c : ascii) (s : string) : option string :=
  match s with
  | EmptyString => None
  | String c' r => if bool_decide (c' = c) then Some r else after_first c r
  end.

(** ** JavaScript numbers *)

(** [n.toString()] and [`${n}`] on an integer: the decimal numeral.  This
    is what [Number.prototype.toString] gives on the safe integers (those
    of absolute value at most [2^53 - 1]); on larger numbers JavaScript
    rounds the digits and, from [10^21] on, writes an exponent, which the
    model does not follow. *)
Definition Number_toString (n : Z) : string :=
  NilZero.string_of_int (Z.to_int n).

(** ** Objects as string dictionaries *)

(** [interface NetworkInterface { [key: string]: string }]: the own
    properties, in enumeration order. *)
Abbreviation NetworkInterface := (list (string * string)).

(** A property key is an array index when it is the canonical decimal
    numeral of an integer below [2^32 - 1]; such keys are enumerated first,
    in ascending order, whatever the order they were created in. *)
Definition array_index (k : string) : option N :=
  match NilEmpty.uint_of_string k with
  | Some d =>
      let n := N.of_uint d in
      if bool_decide (NilZero.string_of_uint (N.to_uint n) = k)
         && (n <? 4294967295)%N
      then Some n else None
  | None => None
  end.

(** [k in own properties of o]. *)
Definition obj_has (k : string) (o : NetworkInterface) : bool :=
  bool_decide (k ∈ o.*1).

(** The own property [k] of [o], when there is one. *)
Fixpoint obj_get (k : string) (o : NetworkInterface) : option string :=
  match o with
  | [] => None
  | (k', v) :: r => if bool_decide (k' = k) then Some v else obj_get k r
  end.

(** Overwrite the value of the existing own property [k], in place. *)
Fixpoint obj_replace (k v : string) (o : NetworkInterface) : NetworkInterface :=
  match o with
  | [] => []
  | (k', v') :: r =>
      if bool_decide (k' = k) then (k', v) :: r
      else (k', v') :: obj_replace k v r
  end.

(** Create the array-index property [k] (of index [n]): it goes after the
    array-index properties of smaller index. *)
Fixpoint obj_insert_index (n : N) (k v : string) (o : NetworkInterface)
  : NetworkInterface :=
  match o with
  | [] => [(k, v)]
  | (k', v') :: r =>
      match array_index k' with
      | Some n' =>
          if (n' <? n)%N then (k', v') :: obj_insert_index n k v r
          else (k, v) :: o
      | None => (k, v) :: o
      end
  end.

(** Define the own data property [k] with value [v]: an existing property
    keeps its place, a new array index is sorted in, any other new key goes
    last. *)
Definition obj_define (k v : string) (o : NetworkInterface) : NetworkInterface :=
  if obj_has k o then obj_replace k v o
  else match array_index k with
       | Some n => obj_insert_index n k v o
       | None => o ++ [(k, v)]
       end.

(** [o[k] = v] for a string [v], on an object literal (whose prototype is
    [Object.prototype]).  An own property is written; a key that is not an
    own property is created, except ["__proto__"]: that name is an accessor
    inherited from [Object.prototype], and its setter ignores a value that
    is neither an object nor [null], so that nothing is stored. *)
Definition obj_assign (k v : string) (o : NetworkInterface) : NetworkInterface :=
  if bool_decide (k = "__proto__") && negb (obj_has k o) then o
  else obj_define k v o.

(** [delete o[k]]. *)
Definition obj_delete (k : string) (o : NetworkInterface) : NetworkInterface :=
  filter (λ e, e.1 ≠ k) o.

(** [k1] is enumerated before [k2] in every object that has both:
    array indices in ascending order, then the other keys (among which the
    order is that of creation, so that only distinctness is required). *)
Definition key_before (k1 k2 : string) : bool :=
  match array_index k1, array_index k2 with
  | Some a, Some b => (a <? b)%N
  | Some _, None => true
  | None, Some _ => false
  | None, None => bool_decide (k1 ≠ k2)
  end.

(** The representation invariant: a list is the property list of an object
    when its keys are pairwise distinct and the array indices come first, in
    ascending order. *)
Fixpoint wf_obj (o : NetworkInterface) : bool :=
  match o with
  | [] => true
  | (k, _) :: r => forallb (λ e, key_before k e.1) r && wf_obj r
  end.

(** The invariant in terms of the keys alone. *)
Fixpoint wf_keys (ks : list string) : bool :=
  match ks with
  | [] => true
  | k :: r => forallb (key_before k) r && wf_keys r
  end.

(** ** The interface codec: [class NetworkManager] *)

(** The body of the [forEach] callback of [parseNetworkInterface], on the
    object [net] built so far.  [const [key, value] = item.split("=")]
    takes the first two pieces; a missing piece is [undefined]. *)
Definition parse_item (net : NetworkInterface) (item : string)
  : NetworkInterface :=
  let pieces := split "=" item in
  let key := pieces !! 0%nat in
  let value := pieces !! 1%nat in
  match key, value with
  | Some k, Some v =>
      if bool_decide (k ≠ "") then obj_assign k v net else net
  | _, _ => net
  end.

Definition parseNetworkInterface (interfaceString : string)
  : NetworkInterface :=
  foldl parse_item [] (split "," interfaceString).

Definition buildNetworkInterface (net : NetworkInterface) : string :=
  join "," (map (λ e, e.1 +:+ "=" +:+ e.2) net).

(** [{ ...net }] yields a new object with the same own properties in the
    same order; the copy is what is updated and returned.  (That the copy
    is a new object and [net] is left as it was is the subject of
    [updateInterfaceRate_ref] below.) *)
Definition updateInterfaceRate (net : NetworkInterface) (rate : Z)
  : NetworkInterface :=
  let updatedNet := net in
  if bool_decide (rate = 0%Z) then obj_delete "rate" updatedNet
  else obj_assign "rate" (Number_toString rate) updatedNet.


(** ** Objects in the store

    [updateInterfaceRate] once more, this time with the objects in a store
    and the arguments and results references into it, so that what the
    function does to the object it is given can be stated. *)

Definition updateInterfaceRate_ref
  (h : gmap positive NetworkInterface) (net : positive) (rate : Z)
  : option (gmap positive NetworkInterface * positive) :=
  match h !! net with
  | None => None
  | Some props =>
      (* const updatedNet = { ...net }; *)
      let updatedNet := fresh (dom h) in
      let h1 := <[updatedNet := props]> h in
      let h2 :=
        if bool_decide (rate = 0%Z)
        then alter (obj_delete "rate") updatedNet h1
        else alter (obj_assign "rate" (Number_toString rate)) updatedNet h1 in
      Some (h2, updatedNet)
  end.

(** ** Values that come from the remote API *)

(** A parsed JSON document.  The members of an object are its own
    properties (distinct keys). *)
#[warnings="-register-all"]
Inductive json : Type :=
| JNull
| JBool (b : bool)
| JNum (n : Z)
| JStr (s : string)
| JArr (items : list json)
| JObj (members : list (string * json)).

(** What reading a member of the guest configuration can evaluate to: a
    JSON value, [undefined], or something inherited from a built-in
    prototype (a function, or the prototype object itself for
    ["__proto__"]). *)
Inductive value : Type :=
| VUndefined
| VJson (j : json)
| VBuiltin (name : string).

(** [!!v]. *)
Definition truthy (v : value) : bool :=
  match v with
  | VUndefined => false
  | VJson JNull => false
  | VJson (JBool b) => b
  | VJson (JNum n) => bool_decide (n ≠ 0%Z)
  | VJson (JStr s) => bool_decide (s ≠ "")
  | VJson (JArr _) => true
  | VJson (JObj _) => true
  | VBuiltin _ => true
  end.

(** [data === null], for [data] a JSON value or [undefined] ([None]). *)
Definition is_null (data : option json) : bool :=
  match data with
  | Some JNull => true
  | _ => false
  end.

(** The own member [k] of a parsed JSON object. *)
Fixpoint json_member (k : string) (members : list (string * json))
  : option json :=
  match members with
  | [] => None
  | (k', j) :: r => if bool_decide (k' = k) then Some j else json_member k r
  end.

(** The property names of [Object.prototype]; every one of them holds a
    function, except ["__proto__"], which reads as the prototype object. *)
Definition object_prototype_names : list string :=
  ["constructor"; "hasOwnProperty"; "isPrototypeOf"; "propertyIsEnumerable";
   "toLocaleString"; "toString"; "valueOf"; "__proto__";
   "__defineGetter__"; "__defineSetter__"; "__lookupGetter__";
   "__lookupSetter__"].

(** ** Exceptions, requests and responses *)

Inductive exn : Type :=
| Error (message : string)      (* [new Error(message)], thrown by the program *)
| TypeError (message : string)  (* thrown by the engine *)
| Rejection (reason : string).  (* a promise of the HTTP library rejected *)

Inductive outcome (A : Type) : Type :=
| Returned (a : A)
| Thrown (e : exn).
Arguments Returned {A} a.
Arguments Thrown {A} e.

Inductive http_method : Type := GET | PUT.

Record request : Type := {
  req_method : http_method;
  req_url : string;
  req_headers : list (string * string);
  req_body : option json  (* the document that [JSON.stringify] serialises *)
}.

Record response : Type := {
  status : Z;
  statusText : string;
  json_body : outcome json  (* what [response.json()] settles to *)
}.

(** [response.ok]: the status is in the range 200-299. *)
Definition ok (r : response) : bool :=
  bool_decide (200 ≤ status r)%Z && bool_decide (status r < 300)%Z.

Inductive severity : Type := INFO | ERROR | SUCCESS.

(** What the program does to the outside, in the order it does it: an HTTP
    request, or a line on the console (the severity tag, the message, and
    the error object printed after it, if any; the timestamp between tag and
    message is left out). *)
Inductive event : Type :=
| Fetch (r : request)
| Console (tag : severity) (message : string) (error : option exn).

(** ** The environment

    The program's collaborators, which are not part of the repository:
    - the remote API behind [fetch]: it has a state of its own and answers a
      request with a response, or not at all (the promise rejects);
    - node-cron's [schedule], which accepts an expression and a time zone
      or throws;
    - the engine's lookup of a member on a string, number, boolean or array
      ([length], indices, the built-in prototypes). *)
Class Env : Type := {
  World : Type;
  remote : World → request → outcome response * World;
  cron_validate : string → string → option exn;
  primitive_member : json → string → value
}.

Record ProxmoxClient : Type := {
  host : string;
  apiId : string;
  apiSecret : string
}.

(** [interface Node]; [sched] maps a time of day to a map from an interface
    name to a rate, both in the order [Object.entries] enumerates them. *)
Record Node : Type := {
  node_type : string;
  node_id : Z;
  node_sched : list (string * list (string * Z))
}.

(** A registered trigger: the expression and time zone given to node-cron,
    and what its callback closes over. *)
Record task : Type := {
  task_expression : string;
  task_timezone : string;
  task_client : ProxmoxClient;
  task_nodeName : string;
  task_node : Node;
  task_interfaceName : string;
  task_interfaceValue : Z
}.

Record state `{Env} : Type := {
  world : World;
  trace : list event;
  tasks : list task
}.

(** ** The monad of effectful code *)

Definition M `{Env} (A : Type) : Type := state → outcome A * state.

Definition ret `{Env} {A} (a : A) : M A := λ s, (Returned a, s).

Definition bind `{Env} {A B} (m : M A) (k : A → M B) : M B :=
  λ s, match m s with
       | (Returned a, s') => k a s'
       | (Thrown e, s') => (Thrown e, s')
       end.

(** [throw e]. *)
Definition throw `{Env} {A} (e : exn) : M A := λ s, (Thrown e, s).

(** [try { body } catch (error) { handler }]. *)
Definition try_catch `{Env} {A} (body : M A) (handler : exn → M A) : M A :=
  λ s, match body s with
       | (Returned a, s') => (Returned a, s')
       | (Thrown e, s') => handler e s'
       end.

Definition emit `{Env} (e : event) : M unit :=
  λ s, (Returned tt,
        {| world := world s; trace := trace s ++ [e]; tasks := tasks s |}).

(** [await fetch(url, options)]. *)
Definition fetch `{Env} (r : request) : M response :=
  λ s, let '(o, w) := remote (world s) r in
       (o, {| world := w; trace := trace s ++ [Fetch r]; tasks := tasks s |}).

(** [await response.json()]. *)
Definition response_json `{Env} (r : response) : M json :=
  λ s, (json_body r, s).

#[export] Instance M_ret `{Env} : MRet M := λ A, ret.
#[export] Instance M_bind `{Env} : MBind M := λ A B k m, bind m k.

(** [for (const x of xs) { body }]. *)
Fixpoint for_of `{Env} {A} (xs : list A) (body : A → M unit) : M unit :=
  match xs with
  | [] => ret tt
  | x :: r => body x;; for_of r body
  end.

(** ** [class Logger] *)

Definition Logger_info `{Env} (message : string) : M unit :=
  emit (Console INFO message None).

Definition Logger_error `{Env} (message : string) (error : option exn)
  : M unit :=
  emit (Console ERROR message error).

Definition Logger_success `{Env} (message : string) : M unit :=
  emit (Console SUCCESS message None).

(** ** The control-plane client: [class ProxmoxClient] *)

Definition headers (this : ProxmoxClient) : list (string * string) :=
  [("Content-Type", "application/json");
   ("Authorization",
    "PVEAPIToken=" +:+ apiId this +:+ "=" +:+ apiSecret this)].

Definition getConfigUrl (this : ProxmoxClient)
  (nodeName type : string) (vmId : Z) : string :=
  host this +:+ "/api2/json/nodes/" +:+ nodeName +:+ "/" +:+ type +:+ "/"
  +:+ Number_toString vmId +:+ "/config".

(** [const { data } = body]: destructuring [null] throws; an object gives
    its member [data] or [undefined]; no other JSON value has a property of
    that name. *)
Definition destructure_data `{Env} (body : json) : M (option json) :=
  match body with
  | JNull =>
      throw (TypeError "Cannot destructure property 'data' of null")
  | JObj members => mret (json_member "data" members)
  | _ => mret None
  end.

Definition getCurrentConfig `{Env} (this : ProxmoxClient)
  (nodeName type : string) (vmId : Z) : M (option json) :=
  let url := getConfigUrl this nodeName type vmId in
  response ← fetch {| req_method := GET; req_url := url;
                      req_headers := headers this; req_body := None |};
  if negb (ok response) then
    throw (Error ("Failed to get config: "
                  +:+ Number_toString (status response) +:+ " "
                  +:+ statusText response))
  else
    body ← response_json response;
    data ← destructure_data body;
    mret data.

(** [JSON.stringify] of an object whose values are strings. *)
Definition JSON_stringify (config : list (string * string)) : json :=
  JObj (map (λ e, (e.1, JStr e.2)) config).

Definition updateConfig `{Env} (this : ProxmoxClient)
  (nodeName type : string) (vmId : Z) (config : list (string * string))
  : M bool :=
  let url := getConfigUrl this nodeName type vmId in
  response ← fetch {| req_method := PUT; req_url := url;
                      req_headers := headers this;
                      req_body := Some (JSON_stringify config) |};
  if negb (ok response) then
    throw (Error ("Failed to update config: "
                  +:+ Number_toString (status response) +:+ " "
                  +:+ statusText response))
  else
    body ← response_json response;
    data ← destructure_data body;
    mret (is_null data).

(** ** The trigger action and the trigger registry: [class ScheduleManager] *)

Record ScheduleManager : Type := { timezone : string }.

(** [currentConfig[interfaceName]], for [currentConfig] what
    [getCurrentConfig] returned.  Reading a member of [undefined] or [null]
    throws.  On an object the own member is found first, then the members
    of [Object.prototype]. *)
Definition get_member `{Env} (currentConfig : option json) (k : string)
  : M value :=
  match currentConfig with
  | None => throw (TypeError "Cannot read properties of undefined")
  | Some JNull => throw (TypeError "Cannot read properties of null")
  | Some (JObj members) =>
      match json_member k members with
      | Some j => mret (VJson j)
      | None =>
          if bool_decide (k ∈ object_prototype_names) then mret (VBuiltin k)
          else mret VUndefined
      end
  | Some j => mret (primitive_member j k)
  end.

(** [NetworkManager.parseNetworkInterface(v)] for [v] of type [any]: the
    call [interfaceString.split(",")] throws unless [v] is a string. *)
Definition parseNetworkInterface_any `{Env} (v : value) : M NetworkInterface :=
  match v with
  | VJson (JStr interfaceString) => mret (parseNetworkInterface interfaceString)
  | _ => throw (TypeError "interfaceString.split is not a function")
  end.

(** The [try] block of [setNetworkInterface]. *)
Definition setNetworkInterface_try `{Env} (client : ProxmoxClient)
  (nodeName type : string) (vmId : Z) (interfaceName : string)
  (interfaceValue : Z) : M bool :=
  currentConfig ← getCurrentConfig client nodeName type vmId;
  present ← get_member currentConfig interfaceName;
  if negb (truthy present) then
    throw (Error ("Interface " +:+ interfaceName +:+ " not found in VM config"))
  else
    raw ← get_member currentConfig interfaceName;
    currentNet ← parseNetworkInterface_any raw;
    let updatedNet := updateInterfaceRate currentNet interfaceValue in
    let newConfig := [(interfaceName, buildNetworkInterface updatedNet)] in
    updateConfig client nodeName type vmId newConfig.

Definition setNetworkInterface `{Env} (client : ProxmoxClient)
  (nodeName type : string) (vmId : Z) (interfaceName : string)
  (interfaceValue : Z) : M bool :=
  try_catch
    (setNetworkInterface_try client nodeName type vmId interfaceName
       interfaceValue)
    (λ error,
       Logger_error
         ("Failed to set interface " +:+ interfaceName +:+ " for "
          +:+ nodeName +:+ "/" +:+ type +:+ "/" +:+ Number_toString vmId)
         (Some error);;
       mret false).

(** [`${nodeName}/${node.type}/${node.id} ${interfaceName}=${interfaceValue}`],
    the text common to the log lines of a trigger. *)
Definition task_label (nodeName : string) (node : Node)
  (interfaceName : string) (interfaceValue : Z) : string :=
  nodeName +:+ "/" +:+ node_type node +:+ "/" +:+ Number_toString (node_id node)
  +:+ " " +:+ interfaceName +:+ "=" +:+ Number_toString interfaceValue.

(** The callback that [scheduleNetworkUpdate] gives to node-cron. *)
Definition scheduled_callback `{Env} (client : ProxmoxClient)
  (nodeName : string) (node : Node) (interfaceName : string)
  (interfaceValue : Z) : M unit :=
  Logger_info ("Executing scheduled task: "
               +:+ task_label nodeName node interfaceName interfaceValue);;
  success ← setNetworkInterface client nodeName (node_type node)
              (node_id node) interfaceName interfaceValue;
  if (success : bool) then
    Logger_success (task_label nodeName node interfaceName interfaceValue
                    +:+ " - Applied successfully")
  else
    Logger_error (task_label nodeName node interfaceName interfaceValue
                  +:+ " - Failed to apply") None.

(** [`${x}`] for [x] a string or [undefined]. *)
Definition template (x : option string) : string :=
  match x with
  | Some s => s
  | None => "undefined"
  end.

(** [const [hour, minute] = time.split(":")] and
    [`${minute} ${hour} * * *`]. *)
Definition cronExpression (time : string) : string :=
  let pieces := split ":" time in
  let hour := pieces !! 0%nat in
  let minute := pieces !! 1%nat in
  template minute +:+ " " +:+ template hour +:+ " * * *".

(** [cron.schedule(expression, callback, { timezone })]: node-cron throws on
    what it does not accept, and otherwise keeps the task. *)
Definition cron_schedule `{Env} (t : task) : M unit :=
  λ s, match cron_validate (task_expression t) (task_timezone t) with
       | Some e => (Thrown e, s)
       | None =>
           (Returned tt,
            {| world := world s; trace := trace s; tasks := tasks s ++ [t] |})
       end.

Definition scheduleNetworkUpdate `{Env} (this : ScheduleManager)
  (client : ProxmoxClient) (nodeName : string) (node : Node) (time : string)
  (interfaceName : string) (interfaceValue : Z) : M unit :=
  cron_schedule {| task_expression := cronExpression time;
                   task_timezone := timezone this;
                   task_client := client;
                   task_nodeName := nodeName;
                   task_node := node;
                   task_interfaceName := interfaceName;
                   task_interfaceValue := interfaceValue |};;
  Logger_info ("Scheduled " +:+ time +:+ ": "
               +:+ task_label nodeName node interfaceName interfaceValue).

(** Running the callback of a registered trigger, and running those of
    several triggers one after the other. *)
Definition run_task `{Env} (t : task) : M unit :=
  scheduled_callback (task_client t) (task_nodeName t) (task_node t)
    (task_interfaceName t) (task_interfaceValue t).

Definition fire `{Env} (due : list task) : M unit := for_of due run_task.

(** ** [class Application] *)

Record ServerConfig : Type := {
  server_id : string;
  server_secret : string;
  server_nodes : list (string * list Node)
}.

Record Config : Type := {
  config_timezone : string;
  config_servers : list (string * ServerConfig)
}.

Record Application : Type := {
  config : Config;
  scheduleManager : ScheduleManager
}.

(** [constructor()], given what [loadConfig()] returned. *)
Definition new_Application (loaded : Config) : Application :=
  {| config := loaded;
     scheduleManager := {| timezone := config_timezone loaded |} |}.

Definition setupNodeSchedules `{Env} (this : Application)
  (client : ProxmoxClient) (nodeName : string) (node : Node) : M unit :=
  for_of (node_sched node) (λ entry,
    let '(time, interfaces) := entry in
    for_of interfaces (λ rate,
      let '(interfaceName, interfaceValue) := rate in
      scheduleNetworkUpdate (scheduleManager this) client nodeName node time
        interfaceName interfaceValue)).

Definition setupServerSchedules `{Env} (this : Application)
  (serverUrl : string) (serverConfig : ServerConfig) : M unit :=
  let client := {| host := serverUrl; apiId := server_id serverConfig;
                   apiSecret := server_secret serverConfig |} in
  Logger_info ("Setting up schedules for server: " +:+ serverUrl);;
  for_of (server_nodes serverConfig) (λ entry,
    let '(nodeName, nodes) := entry in
    for_of nodes (λ node, setupNodeSchedules this client nodeName node)).

Definition start `{Env} (this : Application) : M unit :=
  Logger_info "Starting PSNL (Proxmox Scheduler Network Limiter)";;
  Logger_info ("Timezone: " +:+ config_timezone (config this));;
  for_of (config_servers (config this)) (λ entry,
    let '(serverUrl, serverConfig) := entry in
    setupServerSchedules this serverUrl serverConfig);;
  Logger_info "All schedules have been set up successfully".

(** ** Vocabulary of the specification

    The definitions of this part are not taken from the program: they say, in
    the words of the design document, what the program is compared with. *)

(** A descriptor as the document has it: a flat key-value map, unordered. *)
Definition to_map (o : NetworkInterface) : gmap string string := list_to_map o.

(** "Splits [s] on [,], then each segment on the first [=]; segments without
    both a non-empty key and a defined value are dropped": the key of a
    segment is the text before its first [=], the value all the text after
    it. *)
Definition spec_segment (segment : string) : option (string * string) :=
  match after_first "=" segment with
  | Some v =>
      let k := before_first "=" segment in
      if bool_decide (k ≠ "") then Some (k, v) else None
  | None => None
  end.

(** The descriptor of a string, given how a segment is read: the segments
    are taken from left to right, a later one overwriting an earlier one. *)
Definition decode_with (read : string → option (string * string))
  (s : string) : gmap string string :=
  foldl (λ d segment,
           match read segment with
           | Some (k, v) => <[k := v]> d
           | None => d
           end) ∅ (split "," s).

Definition spec_decode : string → gmap string string :=
  decode_with spec_segment.

(** What the program takes from a segment: the key is the text before the
    first [=], the value the text between the first [=] and the second (or
    the end of the segment). *)
Definition code_segment (segment : string) : option (string * string) :=
  match after_first "=" segment with
  | Some rest =>
      let k := before_first "=" segment in
      if bool_decide (k ≠ "") then Some (k, before_first "=" rest) else None
  | None => None
  end.

(** "The same key occurs in more than one segment; the descriptor maps that
    key to the value of the last such segment": the segments [i] and [j]
    both have the key [k], no segment after [j] has it, and [j] has the
    value [v]. *)
Definition last_segment_wins (s : string) : Prop :=
  ∀ (k v : string) (i j : nat) (si sj : string),
    i < j →
    split "," s !! i = Some si → split "," s !! j = Some sj →
    split "=" si !! 0%nat = Some k → split "=" sj !! 0%nat = Some k →
    (∀ (j' : nat) (s' : string),
        j < j' → split "," s !! j' = Some s' → split "=" s' !! 0%nat ≠ Some k) →
    split "=" sj !! 1%nat = Some v →
    obj_get k (parseNetworkInterface s) = Some v.

(** A descriptor that the text format can carry: no key is empty or
    ["__proto__"], and neither separator occurs in a key or in a value. *)
Definition separator_free (s : string) : bool :=
  negb (contains "," s) && negb (contains "=" s).

Definition encodable_entry (e : string * string) : bool :=
  bool_decide (e.1 ≠ "") && bool_decide (e.1 ≠ "__proto__")
  && separator_free e.1 && separator_free e.2.
Arguments encodable_entry : simpl never.

Definition encodable (d : NetworkInterface) : bool :=
  forallb encodable_entry d.

(** "Parseable as [HH:MM] (hour 0-23, minute 0-59)". *)
Definition digit (c : ascii) : option nat :=
  let n := nat_of_ascii c in
  if bool_decide (48 ≤ n ≤ 57) then Some (n - 48) else None.

Definition is_HHMM (time : string) : bool :=
  match time with
  | String h1 (String h2 (String sep (String m1 (String m2 EmptyString)))) =>
      match digit h1, digit h2, digit m1, digit m2 with
      | Some a, Some b, Some c, Some d =>
          bool_decide (sep = ":"%char)
          && bool_decide (10 * a + b ≤ 23) && bool_decide (10 * c + d ≤ 59)
      | _, _, _, _ => false
      end
  | _ => false
  end.

(** The safe integers of JavaScript. *)
Definition is_safe_integer (n : Z) : bool :=
  bool_decide (Z.abs n ≤ 2 ^ 53 - 1)%Z.

(** "The decimal string of [r]": the digits of [r] in base ten, the most
    significant first, without a leading zero, and after a minus sign when
    [r] is negative.  [digits_value 0 s] is the number that the digits [s]
    denote. *)
Fixpoint digits_value (acc : Z) (s : string) : option Z :=
  match s with
  | EmptyString => Some acc
  | String c r =>
      match digit c with
      | Some d => digits_value (10 * acc + Z.of_nat d) r
      | None => None
      end
  end.

Definition is_numeral_of (n : Z) (s : string) : bool :=
  match s with
  | EmptyString => false
  | String c r =>
      (negb (bool_decide (c = "0"%char)) || bool_decide (r = ""))
      && bool_decide (digits_value 0 s = Some n)
  end.

Definition is_decimal_string_of (n : Z) (s : string) : bool :=
  if bool_decide (n < 0)%Z then
    match s with
    | String c m => bool_decide (c = "-"%char) && is_numeral_of (- n) m
    | EmptyString => false
    end
  else is_numeral_of n s.

(** "Registration fails fast for every malformed time of day". *)
Definition rejects_malformed_times `{Env} : Prop :=
  ∀ (this : ScheduleManager) (client : ProxmoxClient) (nodeName : string)
    (node : Node) (time interfaceName : string) (interfaceValue : Z)
    (s : state),
    is_HHMM time = false →
    ∃ (e : exn) (s' : state),
      scheduleNetworkUpdate this client nodeName node time interfaceName
        interfaceValue s = (Thrown e, s').

(** A computation that throws, whatever the state it starts in. *)
Definition throws `{Env} {A} (m : M A) : Prop :=
  ∀ s, ∃ (e : exn) (s' : state), m s = (Thrown e, s').

(** "One trigger per (guest, scheduled time, interface) triple found in the
    configuration tree", in the order of the traversal: server, node,
    guest, time, interface. *)
Definition node_triggers (this : ScheduleManager) (client : ProxmoxClient)
  (nodeName : string) (node : Node) : list task :=
  entry ← node_sched node;
  rate ← entry.2;
  [{| task_expression := cronExpression entry.1;
      task_timezone := timezone this;
      task_client := client;
      task_nodeName := nodeName;
      task_node := node;
      task_interfaceName := rate.1;
      task_interfaceValue := rate.2 |}].

Definition server_triggers (this : ScheduleManager) (serverUrl : string)
  (serverConfig : ServerConfig) : list task :=
  let client := {| host := serverUrl; apiId := server_id serverConfig;
                   apiSecret := server_secret serverConfig |} in
  entry ← server_nodes serverConfig;
  node ← entry.2;
  node_triggers this client entry.1 node.

Definition triggers (app : Application) : list task :=
  entry ← config_servers (config app);
  server_triggers (scheduleManager app) entry.1 entry.2.

(** A computation that returns, having registered the triggers [ts] and
    left the remote world alone. *)
Definition registers `{Env} (m : M unit) (ts : list task) : Prop :=
  ∀ s, ∃ s', m s = (Returned tt, s')
             ∧ tasks s' = tasks s ++ ts ∧ world s' = world s.

(** The two requests of the control-plane client. *)
Definition read_request (this : ProxmoxClient) (nodeName type : string)
  (vmId : Z) : request :=
  {| req_method := GET;
     req_url := getConfigUrl this nodeName type vmId;
     req_headers := headers this;
     req_body := None |}.

Definition write_request (this : ProxmoxClient) (nodeName type : string)
  (vmId : Z) (config : list (string * string)) : request :=
  {| req_method := PUT;
     req_url := getConfigUrl this nodeName type vmId;
     req_headers := headers this;
     req_body := Some (JSON_stringify config) |}.

(** "[writeConfig] raises an error exactly when the HTTP response status is
    non-success". *)
Definition raises_exactly_on_non_success `{Env} : Prop :=
  ∀ (this : ProxmoxClient) (nodeName type : string) (vmId : Z)
    (config : list (string * string)) (s : state) (resp : response)
    (w' : World),
    remote (world s) (write_request this nodeName type vmId config)
    = (Returned resp, w') →
    (∃ e s', updateConfig this nodeName type vmId config s = (Thrown e, s'))
    ↔ ok resp = false.

(** The failure of the kind that the document calls [ConfigurationError]:
    the error that the trigger action throws when it does not find the
    interface. *)
Definition interface_not_found (interfaceName : string) : exn :=
  Error ("Interface " +:+ interfaceName +:+ " not found in VM config").

(** The line with which the trigger action logs the error it caught. *)
Definition failure_line (nodeName type : string) (vmId : Z)
  (interfaceName : string) (e : exn) : event :=
  Console ERROR
    ("Failed to set interface " +:+ interfaceName +:+ " for "
     +:+ nodeName +:+ "/" +:+ type +:+ "/" +:+ Number_toString vmId)
    (Some e).


(** The first line that the callback of a trigger logs. *)
Definition executing_line (t : task) : event :=
  Console INFO
    ("Executing scheduled task: "
     +:+ task_label (task_nodeName t) (task_node t) (task_interfaceName t)
           (task_interfaceValue t))
    None.

(** A computation only adds to what was done to the outside. *)
Definition extends `{Env} (s s' : state) : Prop :=
  ∃ events, trace s' = trace s ++ events.

Definition appends `{Env} {A} (m : M A) : Prop := ∀ s, extends s (m s).2.

(** ** Vocabulary of the further properties *)

(** A body of a successful answer from which no configuration can be
    taken: it is not an object, or its member [data] is missing or
    [null]. *)
Definition carries_no_configuration (body : json) : bool :=
  match body with
  | JObj members =>
      match json_member "data" members with
      | None | Some JNull => true
      | Some _ => false
      end
  | _ => true
  end.

(** The console output among what was done to the outside. *)
Definition is_console (e : event) : bool :=
  match e with
  | Console _ _ _ => true
  | Fetch _ => false
  end.

Definition console (events : list event) : list event :=
  List.filter is_console events.

(** The remote API gives the requests of two clients the same answers. *)
Definition answers_alike `{Env} (c1 c2 : ProxmoxClient) : Prop :=
  ∀ (w : World) (method : http_method) (url : string) (body : option json),
    remote w {| req_method := method; req_url := url;
                req_headers := headers c1; req_body := body |}
    = remote w {| req_method := method; req_url := url;
                  req_headers := headers c2; req_body := body |}.

(** Two states with the same remote world and the same console output, and
    two computations that take such states to the same result and to such
    states. *)
Definition same_output `{Env} (s1 s2 : state) : Prop :=
  world s1 = world s2 ∧ console (trace s1) = console (trace s2).

Definition agree `{Env} {A} (m1 m2 : M A) : Prop :=
  ∀ s1 s2, same_output s1 s2 →
           (m1 s1).1 = (m2 s2).1 ∧ same_output (m1 s1).2 (m2 s2).2.

(** A computation that registers the triggers [ts] one after the other
    until node-cron rejects one: it returns having registered all of them,
    or it throws the error of the first one that node-cron rejects, having
    registered those before it.  It leaves the remote world alone. *)
Definition registers_until `{Env} (m : M unit) (ts : list task) : Prop :=
  ∀ s, ∃ (n : nat) (r : outcome unit) (s' : state),
    m s = (r, s')
    ∧ tasks s' = tasks s ++ take n ts
    ∧ world s' = world s
    ∧ (∀ t, t ∈ take n ts →
            cron_validate (task_expression t) (task_timezone t) = None)
    ∧ match r with
      | Returned _ => n = length ts
      | Thrown e =>
          ∃ t, ts !! n = Some t
               ∧ cron_validate (task_expression t) (task_timezone t) = Some e
      end.

(** ** A scripted environment

    For running the program on concrete inputs: the world is the list of
    the answers the remote API will give, one per request; node-cron accepts
    everything. *)
Definition scripted : Env := {|
  World := list (outcome response);
  remote := λ w _, match w with
                   | a :: r => (a, r)
                   | [] => (Thrown (Rejection "connection refused"), [])
                   end;
  cron_validate := λ _ _, None;
  primitive_member := λ _ _, VUndefined
|}.

Definition initial `{Env} (w : World) : state :=
  {| world := w; trace := []; tasks := [] |}.

(** A response with status 200 whose body is the document [j]. *)
Definition response_200 (j : json) : response :=
  {| status := 200; statusText := "OK"; json_body := Returned j |}.

Definition ok_response (j : json) : outcome response :=
  Returned (response_200 j).

Definition pve : ProxmoxClient :=
  {| host := "https://pve:8006"; apiId := "root@pam!psnl"; apiSecret := "s" |}.

(** A configuration with one guest and two schedule entries. *)
Definition sample_config : Config :=
  {| config_timezone := "Asia/Seoul";
     config_servers :=
       [("https://pve:8006",
         {| server_id := "root@pam!psnl";
            server_secret := "s";
            server_nodes :=
              [("n1",
                [{| node_type := "lxc";
                    node_id := 106;
                    node_sched := [("23:00", [("net0", 0%Z)]);
                                   ("07:00", [("net0", 7%Z)])] |}])] |})] |}.

(** * Properties *)

(** ** Splitting and joining *)

Section strings.
Implicit Types (c : ascii) (s p : string) (ps : list string).

Lemma split_unfold c s :
  split c s = before_first c s ::
              match after_first c s with
              | Some r => split c r
              | None => []
              end.
Proof.
  induction s as [|c' r IH]; simpl; [done|].
  case_bool_decide; [done|].
  rewrite IH. done.
Qed.

Lemma split_first c s : split c s !! 0%nat = Some (before_first c s).
Proof. by rewrite split_unfold. Qed.

Lemma split_second c s :
  split c s !! 1%nat = before_first c <$> after_first c s.
Proof.
  rewrite split_unfold. simpl.
  destruct (after_first c s) as [r|]; simpl; [|done].
  apply split_first.
Qed.

Lemma contains_app c s p :
  contains c (s +:+ p) = contains c s || contains c p.
Proof.
  induction s as [|c' r IH]; simpl; [done|].
  rewrite IH. by rewrite orb_assoc.
Qed.

Lemma before_first_absent c s : contains c s = false → before_first c s = s.
Proof.
  induction s as [|c' r IH]; simpl; [done|].
  intros [H1 H2]%orb_false_elim.
  rewrite H1. by rewrite IH.
Qed.

Lemma after_first_absent c s : contains c s = false → after_first c s = None.
Proof.
  induction s as [|c' r IH]; simpl; [done|].
  intros [H1 H2]%orb_false_elim.
  rewrite H1. by apply IH.
Qed.

Lemma before_first_app c s p :
  contains c s = false → before_first c (s +:+ String c p) = s.
Proof.
  induction s as [|c' r IH]; simpl.
  - intros _. by rewrite bool_decide_eq_true_2.
  - intros [H1 H2]%orb_false_elim. rewrite H1. by rewrite IH.
Qed.

Lemma after_first_app c s p :
  contains c s = false → after_first c (s +:+ String c p) = Some p.
Proof.
  induction s as [|c' r IH]; simpl.
  - intros _. by rewrite bool_decide_eq_true_2.
  - intros [H1 H2]%orb_false_elim. rewrite H1. by apply IH.
Qed.

Lemma split_absent c s : contains c s = false → split c s = [s].
Proof.
  intros H. rewrite split_unfold.
  by rewrite before_first_absent, after_first_absent.
Qed.

Lemma split_app c s p :
  contains c s = false → split c (s +:+ String c p) = s :: split c p.
Proof.
  intros H. rewrite split_unfold.
  by rewrite before_first_app, after_first_app.
Qed.

Lemma join_cons_cons sep p q ps :
  join sep (p :: q :: ps) = p +:+ sep +:+ join sep (q :: ps).
Proof. done. Qed.

(** Splitting undoes joining, for pieces that are free of the separator. *)
Lemma split_join c ps :
  ps ≠ [] → Forall (λ p, contains c p = false) ps →
  split c (join (String c "") ps) = ps.
Proof.
  induction ps as [|p ps IH]; [done|].
  intros _ Hall. inversion Hall as [|? ? Hp Hps]; subst.
  destruct ps as [|q ps].
  - by apply split_absent.
  - rewrite join_cons_cons.
    change (String c "" +:+ ?x) with (String c x).
    rewrite split_app by done. f_equal. by apply IH.
Qed.

End strings.

(** ** Objects *)

Section objects.
Implicit Types (k v : string) (o : NetworkInterface).

Lemma obj_get_None k o : obj_get k o = None ↔ k ∉ o.*1.
Proof.
  induction o as [|[k' v'] r IH]; simpl.
  - split; [intros _; apply not_elem_of_nil | done].
  - rewrite not_elem_of_cons. case_bool_decide as Hk.
    + split; [done|]. by intros [? _].
    + rewrite IH. split; [by intros ?; split; [congruence|] | by intros [_ ?]].
Qed.

Lemma obj_has_false k o : obj_has k o = false ↔ obj_get k o = None.
Proof. unfold obj_has. rewrite bool_decide_eq_false. by rewrite obj_get_None. Qed.

Lemma obj_has_true k o : obj_has k o = true ↔ is_Some (obj_get k o).
Proof.
  rewrite <-not_eq_None_Some, <-obj_has_false. by destruct (obj_has k o).
Qed.

Lemma obj_get_app k o1 o2 :
  obj_get k (o1 ++ o2) =
  match obj_get k o1 with Some v => Some v | None => obj_get k o2 end.
Proof.
  induction o1 as [|[k' v'] r IH]; simpl; [done|].
  by case_bool_decide.
Qed.

Lemma obj_get_replace_eq k v o :
  is_Some (obj_get k o) → obj_get k (obj_replace k v o) = Some v.
Proof.
  induction o as [|[k' v'] r IH]; simpl; [by intros [? ?]|].
  case_bool_decide as Hk; simpl; rewrite ?bool_decide_eq_true_2 by done;
    [done|].
  rewrite bool_decide_eq_false_2 by done. apply IH.
Qed.

Lemma obj_get_replace_ne k k' v o :
  k ≠ k' → obj_get k' (obj_replace k v o) = obj_get k' o.
Proof.
  intros Hne. induction o as [|[k'' v''] r IH]; simpl; [done|].
  case_bool_decide as Hk; simpl.
  - subst k''. by rewrite !bool_decide_eq_false_2 by done.
  - case_bool_decide; [done|apply IH].
Qed.

Lemma obj_get_insert_index_eq n k v o :
  obj_get k o = None → obj_get k (obj_insert_index n k v o) = Some v.
Proof.
  induction o as [|[k' v'] r IH]; simpl.
  - intros _. by rewrite bool_decide_eq_true_2.
  - case_bool_decide as Hk; [done|]. intros Hr.
    destruct (array_index k') as [n'|]; [destruct (n' <? n)%N|]; simpl;
      rewrite ?bool_decide_eq_true_2 by done; try done.
    rewrite bool_decide_eq_false_2 by done. by apply IH.
Qed.

Lemma obj_get_insert_index_ne n k k' v o :
  k ≠ k' → obj_get k' (obj_insert_index n k v o) = obj_get k' o.
Proof.
  intros Hne. induction o as [|[k'' v''] r IH]; simpl.
  - by rewrite bool_decide_eq_false_2.
  - destruct (array_index k'') as [n'|]; [destruct (n' <? n)%N|]; simpl;
      rewrite ?(bool_decide_eq_false_2 (k = k')) by done; try done.
    by rewrite IH.
Qed.

Lemma obj_get_define_eq k v o : obj_get k (obj_define k v o) = Some v.
Proof.
  unfold obj_define. destruct (obj_has k o) eqn:Hhas.
  - apply obj_get_replace_eq. by apply obj_has_true.
  - apply obj_has_false in Hhas.
    destruct (array_index k) as [n|].
    + by apply obj_get_insert_index_eq.
    + rewrite obj_get_app, Hhas. simpl. by rewrite bool_decide_eq_true_2.
Qed.

Lemma obj_get_define_ne k k' v o :
  k ≠ k' → obj_get k' (obj_define k v o) = obj_get k' o.
Proof.
  intros Hne. unfold obj_define. destruct (obj_has k o).
  - by apply obj_get_replace_ne.
  - destruct (array_index k) as [n|].
    + by apply obj_get_insert_index_ne.
    + rewrite obj_get_app. simpl. rewrite bool_decide_eq_false_2 by done.
      by destruct (obj_get k' o).
Qed.

Lemma obj_get_assign_eq k v o :
  k ≠ "__proto__" → obj_get k (obj_assign k v o) = Some v.
Proof.
  intros Hk. unfold obj_assign. rewrite bool_decide_eq_false_2 by done.
  apply obj_get_define_eq.
Qed.

Lemma obj_get_assign_ne k k' v o :
  k ≠ k' → obj_get k' (obj_assign k v o) = obj_get k' o.
Proof.
  intros Hne. unfold obj_assign.
  destruct (bool_decide (k = "__proto__") && negb (obj_has k o)); [done|].
  by apply obj_get_define_ne.
Qed.

Lemma obj_get_delete_eq k o : obj_get k (obj_delete k o) = None.
Proof.
  apply obj_get_None. unfold obj_delete.
  rewrite list_elem_of_fmap. intros [[k' v'] [-> Hin]].
  apply list_elem_of_filter in Hin as [Hne _]. done.
Qed.

Lemma obj_get_delete_ne k k' o :
  k ≠ k' → obj_get k' (obj_delete k o) = obj_get k' o.
Proof.
  intros Hne. unfold obj_delete.
  induction o as [|[k'' v''] r IH]; [done|].
  rewrite filter_cons. case_decide as Hk; simpl in *.
  - by rewrite IH.
  - subst k''. by rewrite bool_decide_eq_false_2.
Qed.

End objects.

(** ** The decimal rendering *)

Section decimal_rendering.

Lemma digits_value_string_of_uint (d : Decimal.uint) (acc : positive) :
  digits_value (Z.pos acc) (NilEmpty.string_of_uint d)
  = Some (Z.pos (Pos.of_uint_acc d acc)).
Proof.
  revert acc. induction d; intros acc; simpl; [done|..];
    rewrite <-IHd; f_equal; lia.
Qed.

(** The digits of a positive number: there is one, the first is not a
    zero, and their value is the number. *)
Lemma is_numeral_of_to_uint (p : positive) :
  is_numeral_of (Z.pos p) (NilEmpty.string_of_uint (Pos.to_uint p)) = true.
Proof.
  pose proof (DecimalPos.Unsigned.of_to p) as Hof.
  pose proof (DecimalPos.Unsigned.to_of (Pos.to_uint p)) as Hnorm.
  rewrite Hof in Hnorm. simpl in Hnorm.
  pose proof (DecimalPos.Unsigned.to_uint_nonzero p) as Hzero.
  pose proof (DecimalFacts.nzhead_nonzero (Pos.to_uint p)) as Hhead.
  unfold Decimal.unorm in Hnorm.
  destruct (Pos.to_uint p) as [|d|d|d|d|d|d|d|d|d|d] eqn:Hd;
    [ done
    | exfalso; simpl Decimal.nzhead in Hnorm, Hhead;
      destruct (Decimal.nzhead d) as [|u|u|u|u|u|u|u|u|u|u] eqn:Hn;
      [ injection Hnorm as Hnil; apply Hzero; by rewrite <-Hnil
      | by apply (Hhead u)
      | discriminate Hnorm .. ]
    | unfold is_numeral_of; simpl NilEmpty.string_of_uint;
      apply andb_true_iff; split; [done|]; apply bool_decide_eq_true;
      simpl in Hof; injection Hof as Hof; rewrite <-Hof; simpl;
      apply (digits_value_string_of_uint d) .. ].
Qed.

(** [Number_toString] gives the decimal string. *)
Lemma Number_toString_decimal (n : Z) :
  is_decimal_string_of n (Number_toString n) = true.
Proof.
  unfold is_decimal_string_of, Number_toString.
  destruct n as [|p|p]; simpl Z.to_int.
  - done.
  - rewrite bool_decide_eq_false_2 by lia.
    unfold NilZero.string_of_int, NilZero.string_of_uint.
    pose proof (is_numeral_of_to_uint p) as Hp.
    by destruct (Pos.to_uint p).
  - rewrite bool_decide_eq_true_2 by lia.
    unfold NilZero.string_of_int, NilZero.string_of_uint.
    pose proof (is_numeral_of_to_uint p) as Hp.
    change (- Z.neg p)%Z with (Z.pos p).
    by destruct (Pos.to_uint p).
Qed.

End decimal_rendering.

(** ** The rate mutation *)

(** C1.  For every descriptor [d]: [updateInterfaceRate d 0] has no [rate]
    key (the key is removed, not set to ["0"]); for every rate [r > 0] that
    is a safe integer, [updateInterfaceRate d r] maps [rate] to what
    [r.toString()] gives, and that is the decimal string of [r]: its digits
    in base ten, the most significant first, without a leading zero; and in
    both cases every key other than [rate] has in the result exactly the
    value, if any, that it has in [d]. *)
Theorem updateInterfaceRate_sets_rate (d : NetworkInterface) :
  obj_get "rate" (updateInterfaceRate d 0) = None
  ∧ (∀ r : Z, (0 < r)%Z → is_safe_integer r = true →
       obj_get "rate" (updateInterfaceRate d r) = Some (Number_toString r)
       ∧ is_decimal_string_of r (Number_toString r) = true)
  ∧ (∀ (r : Z) (k : string), k ≠ "rate" →
       obj_get k (updateInterfaceRate d r) = obj_get k d).
Proof.
  unfold updateInterfaceRate. split_and!.
  - rewrite bool_decide_eq_true_2 by done. apply obj_get_delete_eq.
  - intros r Hr _. rewrite bool_decide_eq_false_2 by lia. split.
    + by apply obj_get_assign_eq.
    + apply Number_toString_decimal.
  - intros r k Hk. case_bool_decide.
    + by apply obj_get_delete_ne.
    + by apply obj_get_assign_ne.
Qed.

(** C8.  [updateInterfaceRate] does not change the object it is given: it
    returns a reference to a new object (one that was not in the store),
    which holds the updated properties, and the store is otherwise as it
    was; in particular the argument has the properties it had. *)
Theorem updateInterfaceRate_ref_frame
  (h : gmap positive NetworkInterface) (net : positive) (rate : Z)
  (props : NetworkInterface) :
  h !! net = Some props →
  ∃ h' updatedNet,
    updateInterfaceRate_ref h net rate = Some (h', updatedNet)
    ∧ h' !! net = Some props
    ∧ h !! updatedNet = None
    ∧ h' !! updatedNet = Some (updateInterfaceRate props rate)
    ∧ ∀ l, l ≠ updatedNet → h' !! l = h !! l.
Proof.
  intros Hnet. unfold updateInterfaceRate_ref. rewrite Hnet.
  set (l := fresh (dom h)).
  assert (Hfresh : h !! l = None).
  { apply not_elem_of_dom. apply is_fresh. }
  assert (Hne : l ≠ net) by (intros ->; congruence).
  eexists _, l. split; [done|]. unfold updateInterfaceRate.
  case_bool_decide; split_and!; try done.
  - rewrite lookup_alter_ne, lookup_insert_ne by done. done.
  - by rewrite lookup_alter_eq, lookup_insert_eq.
  - intros l' Hl'. by rewrite lookup_alter_ne, lookup_insert_ne.
  - rewrite lookup_alter_ne, lookup_insert_ne by done. done.
  - by rewrite lookup_alter_eq, lookup_insert_eq.
  - intros l' Hl'. by rewrite lookup_alter_ne, lookup_insert_ne.
Qed.

(** ** Decoding *)

Section decoding.
Implicit Types (k v s : string) (o net : NetworkInterface).

Lemma to_map_lookup o k : to_map o !! k = obj_get k o.
Proof.
  unfold to_map. induction o as [|[k' v'] r IH]; simpl; [done|].
  rewrite lookup_insert. case_decide; [by rewrite bool_decide_eq_true_2|].
  by rewrite bool_decide_eq_false_2.
Qed.

Lemma to_map_assign k v o :
  k ≠ "__proto__" → to_map (obj_assign k v o) = <[k := v]> (to_map o).
Proof.
  intros Hk. apply map_eq. intros k'. rewrite lookup_insert, !to_map_lookup.
  case_decide as Hkk.
  - subst k'. by apply obj_get_assign_eq.
  - by apply obj_get_assign_ne.
Qed.

(** What the callback does with a segment, in terms of the text of the
    segment. *)
Lemma parse_item_segment net item :
  parse_item net item =
  match code_segment item with
  | Some (k, v) => obj_assign k v net
  | None => net
  end.
Proof.
  unfold parse_item, code_segment.
  rewrite split_first, split_second.
  destruct (after_first "=" item) as [rest|]; simpl; [|done].
  by case_bool_decide.
Qed.

(** A segment that does not define the key [k] leaves the value of [k] as
    it was. *)
Lemma parse_item_other net item k :
  (split "=" item !! 0%nat = Some k → split "=" item !! 1%nat = None) →
  obj_get k (parse_item net item) = obj_get k net.
Proof.
  intros Hitem. unfold parse_item.
  destruct (split "=" item !! 0%nat) as [k'|] eqn:Hk'; [|done].
  destruct (split "=" item !! 1%nat) as [v'|] eqn:Hv'; [|done].
  case_bool_decide; [|done].
  apply obj_get_assign_ne. intros ->. by specialize (Hitem eq_refl).
Qed.

Lemma foldl_parse_item_other net items k :
  (∀ item, item ∈ items →
     split "=" item !! 0%nat = Some k → split "=" item !! 1%nat = None) →
  obj_get k (foldl parse_item net items) = obj_get k net.
Proof.
  revert net. induction items as [|item items IH]; intros net Hitems; [done|].
  simpl. rewrite IH.
  - apply parse_item_other. apply Hitems. by left.
  - intros item' Hin. apply Hitems. by right.
Qed.

Lemma code_segment_key item k v :
  code_segment item = Some (k, v) → k = before_first "=" item.
Proof.
  unfold code_segment. destruct (after_first "=" item); [|done].
  case_bool_decide; [|done]. by intros [= <- _].
Qed.

Lemma foldl_parse_item_to_map net items :
  Forall (λ item, before_first "=" item ≠ "__proto__") items →
  to_map (foldl parse_item net items) =
  foldl (λ d segment,
           match code_segment segment with
           | Some (k, v) => <[k := v]> d
           | None => d
           end) (to_map net) items.
Proof.
  revert net. induction items as [|item items IH]; intros net Hitems; [done|].
  inversion Hitems as [|? ? Hitem Hrest]; subst.
  simpl. rewrite IH by done.
  f_equal. rewrite parse_item_segment.
  destruct (code_segment item) as [[k v]|] eqn:Hseg; [|done].
  apply to_map_assign. by rewrite (code_segment_key _ _ _ Hseg).
Qed.

End decoding.

(** C2, as the design document states it, fails: on ["a=b=c"] the value
    that the program stores for [a] is ["b"], not ["b=c"].  (And a segment
    whose key is ["__proto__"] is stored under neither reading of the
    value.) *)
Lemma parseNetworkInterface_not_first_equals :
  to_map (parseNetworkInterface "a=b=c") ≠ spec_decode "a=b=c"
  ∧ to_map (parseNetworkInterface "__proto__=x")
    ≠ decode_with code_segment "__proto__=x".
Proof.
  split; intros Heq.
  - assert (Hlookup : to_map (parseNetworkInterface "a=b=c") !! "a"
                      = spec_decode "a=b=c" !! "a") by (by rewrite Heq).
    vm_compute in Hlookup. discriminate.
  - assert (Hlookup : to_map (parseNetworkInterface "__proto__=x") !! "__proto__"
                      = decode_with code_segment "__proto__=x" !! "__proto__")
      by (by rewrite Heq).
    vm_compute in Hlookup. discriminate.
Qed.

(** C2, amended.  For every input string [s] none of whose segments has the
    key ["__proto__"]: the descriptor that [parseNetworkInterface] returns is
    obtained by splitting [s] on [,], reading from each segment the text
    before its first [=] as the key and the text between its first and its
    second [=] (up to the end of the segment when there is no second [=]) as
    the value, dropping exactly the segments with no [=] or with an empty
    key, and letting later segments overwrite earlier ones.  In particular
    ["model=virtio,bridge=vmbr0,rate=5"] decodes to [model ↦ virtio],
    [bridge ↦ vmbr0], [rate ↦ 5]. *)
Theorem parseNetworkInterface_reads_segments (s : string) :
  Forall (λ segment, before_first "=" segment ≠ "__proto__") (split "," s) →
  to_map (parseNetworkInterface s) = decode_with code_segment s
  ∧ parseNetworkInterface "model=virtio,bridge=vmbr0,rate=5"
    = [("model", "virtio"); ("bridge", "vmbr0"); ("rate", "5")].
Proof.
  intros Hs. split; [|by vm_compute].
  unfold parseNetworkInterface, decode_with.
  by rewrite foldl_parse_item_to_map.
Qed.

(** C10, as stated, fails: in ["=a,=b"] the key of both segments is the
    empty string, and the descriptor has no such key.  (Nor has the
    descriptor of ["__proto__=a,__proto__=b"] the key of its segments.) *)
Lemma parseNetworkInterface_empty_key_dropped :
  ¬ last_segment_wins "=a,=b"
  ∧ ¬ last_segment_wins "__proto__=a,__proto__=b".
Proof.
  split; intros Hlast.
  - specialize (Hlast "" "b" 0%nat 1%nat "=a" "=b").
    assert (Hget : obj_get "" (parseNetworkInterface "=a,=b") = Some "b").
    { apply Hlast; try done; [lia|].
      intros j' s' Hj' Hs'. destruct j' as [|[|j']]; try lia.
      vm_compute in Hs'. discriminate. }
    vm_compute in Hget. discriminate.
  - specialize (Hlast "__proto__" "b" 0%nat 1%nat "__proto__=a" "__proto__=b").
    assert (Hget : obj_get "__proto__"
                     (parseNetworkInterface "__proto__=a,__proto__=b")
                   = Some "b").
    { apply Hlast; try done; [lia|].
      intros j' s' Hj' Hs'. destruct j' as [|[|j']]; try lia.
      vm_compute in Hs'. discriminate. }
    vm_compute in Hget. discriminate.
Qed.

(** C10, amended.  For every input string and every key [k] other than the
    empty string and ["__proto__"]: if the segment [j] has the key [k] and
    the value [v], and every later segment that has the key [k] has no
    value (it contains no [=]), then the descriptor maps [k] to [v]. *)
Theorem parseNetworkInterface_last_wins
  (s k v : string) (j : nat) (sj : string) :
  k ≠ "" → k ≠ "__proto__" →
  split "," s !! j = Some sj →
  split "=" sj !! 0%nat = Some k → split "=" sj !! 1%nat = Some v →
  (∀ (j' : nat) (s' : string),
      j < j' → split "," s !! j' = Some s' →
      split "=" s' !! 0%nat = Some k → split "=" s' !! 1%nat = None) →
  obj_get k (parseNetworkInterface s) = Some v.
Proof.
  intros Hk Hproto Hj Hkey Hval Hlater. unfold parseNetworkInterface.
  rewrite <-(take_drop_middle _ _ _ Hj), foldl_app. simpl.
  rewrite foldl_parse_item_other.
  - unfold parse_item. rewrite Hkey, Hval.
    rewrite bool_decide_eq_true_2 by done. by apply obj_get_assign_eq.
  - intros item [i Hi]%list_elem_of_lookup. apply (Hlater (S j + i)%nat); [lia|].
    by rewrite <-lookup_drop.
Qed.

(** ** Encoding, then decoding *)

Section round_trip.
Implicit Types (k v s : string) (o net acc rest d : NetworkInterface)
  (c : ascii).

Lemma key_before_irrefl k : key_before k k = false.
Proof.
  unfold key_before. destruct (array_index k) as [n|].
  - apply N.ltb_irrefl.
  - by apply bool_decide_eq_false_2; intros H.
Qed.

(** In an object, every property is enumerated after the ones before it. *)
Lemma wf_obj_before acc k v rest :
  wf_obj (acc ++ (k, v) :: rest) = true →
  Forall (λ e, key_before e.1 k = true) acc.
Proof.
  induction acc as [|[k0 v0] acc IH]; simpl; [by constructor|].
  intros [Hall Hwf]%andb_true_iff. constructor; [|by apply IH].
  rewrite forallb_app in Hall. apply andb_true_iff in Hall as [_ Hall].
  simpl in Hall. by apply andb_true_iff in Hall as [Hall _].
Qed.

Lemma key_before_absent acc k :
  Forall (λ e, key_before e.1 k = true) acc → obj_has k acc = false.
Proof.
  intros Hall. apply bool_decide_eq_false_2.
  intros [[k' v'] [-> Hin]]%list_elem_of_fmap.
  rewrite Forall_forall in Hall. specialize (Hall _ Hin). simpl in Hall.
  by rewrite key_before_irrefl in Hall.
Qed.

(** A new array index that is larger than all the keys goes last. *)
Lemma obj_insert_index_last n k v acc :
  array_index k = Some n →
  Forall (λ e, key_before e.1 k = true) acc →
  obj_insert_index n k v acc = acc ++ [(k, v)].
Proof.
  intros Hn. induction acc as [|[k0 v0] acc IH]; simpl; [done|].
  intros Hall. inversion Hall as [|? ? Hk0 Hacc]; subst. simpl in Hk0.
  unfold key_before in Hk0. rewrite Hn in Hk0.
  destruct (array_index k0) as [n0|]; [|done].
  rewrite Hk0. by rewrite IH.
Qed.

(** Defining the property that comes next in an object appends it. *)
Lemma obj_define_next acc k v rest :
  wf_obj (acc ++ (k, v) :: rest) = true →
  obj_define k v acc = acc ++ [(k, v)].
Proof.
  intros Hall%wf_obj_before. unfold obj_define.
  rewrite key_before_absent by done.
  destruct (array_index k) as [n|] eqn:Hn; [|done].
  by apply obj_insert_index_last.
Qed.

Lemma separator_free_segment k v :
  separator_free k = true → separator_free v = true →
  contains "," (k +:+ "=" +:+ v) = false
  ∧ split "=" (k +:+ "=" +:+ v) = [k; v].
Proof.
  unfold separator_free.
  intros [Hk1 Hk2]%andb_true_iff [Hv1 Hv2]%andb_true_iff.
  apply negb_true_iff in Hk1, Hk2, Hv1, Hv2. split.
  - rewrite !contains_app, Hk1, Hv1. done.
  - change (k +:+ "=" +:+ v) with (k +:+ String "=" v).
    rewrite split_app by done. by rewrite split_absent.
Qed.

Lemma foldl_parse_item_build acc d :
  wf_obj (acc ++ d) = true → encodable d = true →
  foldl parse_item acc (map (λ e, e.1 +:+ "=" +:+ e.2) d) = acc ++ d.
Proof.
  revert acc. induction d as [|[k v] d IH]; intros acc Hwf Henc; simpl.
  - by rewrite app_nil_r.
  - simpl in Henc. apply andb_true_iff in Henc as [Hkv Hd].
    unfold encodable_entry in Hkv. simpl in Hkv.
    apply andb_true_iff in Hkv as [Hkv Hv].
    apply andb_true_iff in Hkv as [Hkv Hk].
    apply andb_true_iff in Hkv as [Hne Hproto].
    apply bool_decide_eq_true in Hne, Hproto.
    destruct (separator_free_segment k v Hk Hv) as [_ Hsplit].
    assert (Hitem : parse_item acc (k +:+ "=" +:+ v) = acc ++ [(k, v)]).
    { unfold parse_item. rewrite Hsplit. simpl.
      rewrite bool_decide_eq_true_2 by done.
      unfold obj_assign. rewrite bool_decide_eq_false_2 by done. simpl.
      by apply (obj_define_next acc k v d). }
    rewrite Hitem, IH; [by rewrite <-app_assoc| |done].
    by rewrite <-app_assoc.
Qed.


(** The segments of an encoding are the encodings of the entries. *)
Lemma split_build e d :
  encodable (e :: d) = true →
  split "," (buildNetworkInterface (e :: d))
  = map (λ e, e.1 +:+ "=" +:+ e.2) (e :: d).
Proof.
  intros Henc. unfold buildNetworkInterface. apply split_join; [done|].
  apply Forall_fmap, Forall_forall. intros [k v] Hin. simpl.
  unfold encodable in Henc. rewrite forallb_forall in Henc.
  apply list_elem_of_In, Henc in Hin.
  unfold encodable_entry in Hin. simpl in Hin.
  apply andb_true_iff in Hin as [Hkv Hv].
  apply andb_true_iff in Hkv as [_ Hk].
  by destruct (separator_free_segment k v Hk Hv) as [Hc _].
Qed.


Lemma array_index_canonical k n :
  array_index k = Some n → NilZero.string_of_uint (N.to_uint n) = k.
Proof.
  unfold array_index. destruct (NilEmpty.uint_of_string k) as [d|]; [|done].
  destruct (bool_decide _) eqn:Hcanon; simpl; [|done].
  destruct (_ <? _)%N; [|done]. intros [= <-].
  by apply bool_decide_eq_true in Hcanon.
Qed.

Lemma array_index_inj k1 k2 n :
  array_index k1 = Some n → array_index k2 = Some n → k1 = k2.
Proof.
  intros H1%array_index_canonical H2%array_index_canonical. congruence.
Qed.

Lemma forallb_keys (f : string → bool) o :
  forallb (λ e, f e.1) o = forallb f o.*1.
Proof. induction o as [|[k v] o IH]; csimpl; [done|]. by rewrite IH. Qed.

Lemma wf_obj_keys o : wf_obj o = wf_keys o.*1.
Proof.
  induction o as [|[k v] o IH]; csimpl; [done|].
  by rewrite IH, forallb_keys.
Qed.

Lemma obj_replace_keys k v o : (obj_replace k v o).*1 = o.*1.
Proof.
  induction o as [|[k' v'] o IH]; csimpl; [done|].
  case_bool_decide; csimpl; [done|]. by rewrite IH.
Qed.

Lemma obj_insert_index_keys n k v o :
  (obj_insert_index n k v o).*1 ≡ₚ k :: o.*1.
Proof.
  induction o as [|[k' v'] o IH]; csimpl; [done|].
  destruct (array_index k') as [n'|]; [destruct (n' <? n)%N|]; csimpl;
    try done.
  rewrite IH. apply Permutation_swap.
Qed.

Lemma forallb_key_before_perm k ks1 ks2 :
  ks1 ≡ₚ ks2 → forallb (key_before k) ks1 = forallb (key_before k) ks2.
Proof.
  intros Hperm. apply eq_true_iff_eq. rewrite !forallb_forall.
  split; intros Hall x Hx; apply Hall;
    apply list_elem_of_In; apply list_elem_of_In in Hx;
    [by rewrite Hperm|by rewrite <-Hperm].
Qed.

Lemma wf_keys_insert_index n k v o :
  array_index k = Some n → k ∉ o.*1 →
  wf_keys o.*1 = true → wf_keys (obj_insert_index n k v o).*1 = true.
Proof.
  intros Hn. induction o as [|[k0 v0] o IH]; csimpl; [done|].
  intros [Hne Hnotin]%not_elem_of_cons [Hfirst Hrest]%andb_true_iff.
  assert (Hlater : ∀ k', k' ∈ o.*1 → key_before k0 k' = true).
  { intros k' Hk'. rewrite forallb_forall in Hfirst.
    by apply Hfirst, list_elem_of_In. }
  destruct (array_index k0) as [n0|] eqn:Hn0.
  - destruct (n0 <? n)%N eqn:Hlt; csimpl.
    + rewrite IH by done. rewrite andb_true_r.
      rewrite (forallb_key_before_perm _ _ _ (obj_insert_index_keys n k v o)).
      csimpl. rewrite Hfirst, andb_true_r.
      unfold key_before. by rewrite Hn0, Hn.
    + assert (Hgt : (n <? n0)%N = true).
      { apply N.ltb_lt. apply N.ltb_ge in Hlt.
        destruct (decide (n = n0)) as [->|]; [|lia].
        destruct Hne. by apply (array_index_inj _ _ n0). }
      rewrite Hfirst, Hrest, !andb_true_r.
      apply andb_true_iff. split.
      * unfold key_before. by rewrite Hn, Hn0.
      * apply forallb_forall. intros k' Hk'%list_elem_of_In.
        specialize (Hlater k' Hk'). unfold key_before in *.
        rewrite Hn. rewrite Hn0 in Hlater.
        destruct (array_index k') as [n'|]; [|done].
        apply N.ltb_lt in Hlater, Hgt. apply N.ltb_lt. lia.
  - csimpl. rewrite Hfirst, Hrest, !andb_true_r.
    apply andb_true_iff. split.
    + unfold key_before. by rewrite Hn, Hn0.
    + apply forallb_forall. intros k' Hk'%list_elem_of_In.
      specialize (Hlater k' Hk'). unfold key_before in *.
      rewrite Hn. rewrite Hn0 in Hlater.
      by destruct (array_index k') as [n'|].
Qed.

Lemma wf_keys_snoc k ks :
  array_index k = None → k ∉ ks →
  wf_keys ks = true → wf_keys (ks ++ [k]) = true.
Proof.
  intros Hk. induction ks as [|k0 ks IH]; csimpl; [done|].
  intros [Hne Hnotin]%not_elem_of_cons [Hfirst Hrest]%andb_true_iff.
  rewrite IH by done. rewrite andb_true_r, forallb_app, Hfirst. csimpl.
  rewrite andb_true_r. unfold key_before. rewrite Hk.
  destruct (array_index k0); [done|]. apply bool_decide_eq_true_2. congruence.
Qed.

(** Defining a property keeps the list of properties that of an object. *)
Lemma wf_obj_define k v o :
  wf_obj o = true → wf_obj (obj_define k v o) = true.
Proof.
  rewrite !wf_obj_keys. intros Hwf. unfold obj_define.
  destruct (obj_has k o) eqn:Hhas.
  - by rewrite obj_replace_keys.
  - apply bool_decide_eq_false in Hhas.
    destruct (array_index k) as [n|] eqn:Hn.
    + by apply wf_keys_insert_index.
    + rewrite fmap_app. by apply wf_keys_snoc.
Qed.

Lemma wf_obj_assign k v o :
  wf_obj o = true → wf_obj (obj_assign k v o) = true.
Proof.
  intros Hwf. unfold obj_assign.
  destruct (_ && _); [done|]. by apply wf_obj_define.
Qed.

Lemma split_pieces_free c s : Forall (λ p, contains c p = false) (split c s).
Proof.
  induction s as [|c' r IH]; simpl; [by repeat constructor|].
  case_bool_decide as Hc; [by constructor|].
  destruct (split c r) as [|p ps]; [by repeat constructor; simpl;
                                       rewrite bool_decide_eq_false_2|].
  inversion IH as [|? ? Hp Hps]; subst. constructor; [|done].
  simpl. by rewrite bool_decide_eq_false_2.
Qed.

Lemma split_pieces_other c c' s :
  contains c' s = false → Forall (λ p, contains c' p = false) (split c s).
Proof.
  induction s as [|c0 r IH]; simpl; [by repeat constructor|].
  intros [Hc0 Hr]%orb_false_elim. specialize (IH Hr).
  destruct (bool_decide (c0 = c)); [by constructor|].
  destruct (split c r) as [|p ps]; [by repeat constructor; simpl;
                                       rewrite Hc0|].
  inversion IH as [|? ? Hp Hps]; subst. constructor; [|done].
  simpl. by rewrite Hc0.
Qed.

Lemma encodable_entries o : encodable o = forallb encodable_entry o.
Proof. done. Qed.

Lemma encodable_get o k :
  encodable o = true → k ∈ o.*1 → k ≠ "__proto__".
Proof.
  rewrite encodable_entries, forallb_forall.
  intros Hall [[k' v'] [-> Hin]]%list_elem_of_fmap.
  apply list_elem_of_In, Hall in Hin. unfold encodable_entry in Hin.
  apply andb_true_iff in Hin as [Hin _]. apply andb_true_iff in Hin as [Hin _].
  apply andb_true_iff in Hin as [_ Hin]. by apply bool_decide_eq_true in Hin.
Qed.

Lemma encodable_replace k v o :
  encodable_entry (k, v) = true → encodable o = true →
  encodable (obj_replace k v o) = true.
Proof.
  intros Hkv. rewrite !encodable_entries.
  induction o as [|[k' v'] o IH]; simpl; [done|].
  intros [Hfirst Hrest]%andb_true_iff. case_bool_decide as Hk; simpl;
    apply andb_true_iff; split; try done.
  - by subst k'.
  - by apply IH.
Qed.

Lemma encodable_insert_index n k v o :
  encodable_entry (k, v) = true → encodable o = true →
  encodable (obj_insert_index n k v o) = true.
Proof.
  intros Hkv. rewrite !encodable_entries.
  induction o as [|[k' v'] o IH]; simpl; [by rewrite Hkv|].
  intros [Hfirst Hrest]%andb_true_iff.
  destruct (array_index k') as [n'|]; [destruct (n' <? n)%N|]; simpl.
  - apply andb_true_iff. split; [done|by apply IH].
  - apply andb_true_iff. split; [done|]. apply andb_true_iff. by split.
  - apply andb_true_iff. split; [done|]. apply andb_true_iff. by split.
Qed.

Lemma encodable_define k v o :
  encodable_entry (k, v) = true → encodable o = true →
  encodable (obj_define k v o) = true.
Proof.
  intros Hkv Ho. unfold obj_define. destruct (obj_has k o).
  - by apply encodable_replace.
  - destruct (array_index k) as [n|].
    + by apply encodable_insert_index.
    + rewrite encodable_entries, forallb_app. simpl.
      by rewrite <-encodable_entries, Ho, Hkv.
Qed.

(** The callback keeps the object an object that the format can carry. *)
Lemma parse_item_invariant net item :
  contains "," item = false →
  wf_obj net = true ∧ encodable net = true →
  wf_obj (parse_item net item) = true
  ∧ encodable (parse_item net item) = true.
Proof.
  intros Hitem [Hwf Henc]. unfold parse_item.
  destruct (split "=" item !! 0%nat) as [k|] eqn:Hk; [|done].
  destruct (split "=" item !! 1%nat) as [v|] eqn:Hv; [|done].
  case_bool_decide as Hne; [|done].
  split; [by apply wf_obj_assign|].
  unfold obj_assign. case_bool_decide as Hproto; simpl.
  - destruct (obj_has k net) eqn:Hhas; simpl; [|done].
    apply bool_decide_eq_true in Hhas.
    by destruct (encodable_get net k Henc Hhas).
  - apply encodable_define; [|done].
    pose proof (split_pieces_free "=" item) as Hfree.
    pose proof (split_pieces_other "=" "," item Hitem) as Hother.
    rewrite Forall_lookup in Hfree, Hother.
    unfold encodable_entry, separator_free. simpl.
    rewrite (Hfree _ _ Hk), (Hfree _ _ Hv), (Hother _ _ Hk), (Hother _ _ Hv).
    simpl. by rewrite !bool_decide_eq_true_2.
Qed.

Lemma foldl_parse_item_invariant net items :
  Forall (λ item, contains "," item = false) items →
  wf_obj net = true ∧ encodable net = true →
  wf_obj (foldl parse_item net items) = true
  ∧ encodable (foldl parse_item net items) = true.
Proof.
  revert net. induction items as [|item items IH]; intros net Hitems Hnet;
    [done|].
  inversion Hitems as [|? ? Hitem Hrest]; subst. simpl.
  apply IH; [done|]. by apply parse_item_invariant.
Qed.

Lemma parseNetworkInterface_invariant s :
  wf_obj (parseNetworkInterface s) = true
  ∧ encodable (parseNetworkInterface s) = true.
Proof.
  unfold parseNetworkInterface.
  apply foldl_parse_item_invariant; [apply split_pieces_free|done].
Qed.

End round_trip.

(** C3, as stated, fails: the descriptor that maps [a] to ["x,y"] has no
    empty key, and encoding then decoding it gives the descriptor that maps
    [a] to ["x"].  (The descriptor that maps ["__proto__"] to ["x"] comes
    back empty.) *)
Lemma round_trip_loses_separators :
  (wf_obj [("a", "x,y")] = true
   ∧ Forall (λ e, e.1 ≠ "") [("a", "x,y")]
   ∧ to_map (parseNetworkInterface (buildNetworkInterface [("a", "x,y")]))
     ≠ to_map [("a", "x,y")])
  ∧ (wf_obj [("__proto__", "x")] = true
     ∧ Forall (λ e, e.1 ≠ "") [("__proto__", "x")]
     ∧ to_map (parseNetworkInterface
                 (buildNetworkInterface [("__proto__", "x")]))
       ≠ to_map [("__proto__", "x")]).
Proof.
  split; (split_and!; [done|by repeat constructor|]); intros Heq.
  - assert (Hlookup :
      to_map (parseNetworkInterface (buildNetworkInterface [("a", "x,y")]))
        !! "a"
      = to_map [("a", "x,y")] !! "a") by (by rewrite Heq).
    vm_compute in Hlookup. discriminate.
  - assert (Hlookup :
      to_map (parseNetworkInterface
                (buildNetworkInterface [("__proto__", "x")])) !! "__proto__"
      = to_map [("__proto__", "x")] !! "__proto__") by (by rewrite Heq).
    vm_compute in Hlookup. discriminate.
Qed.

(** C3, amended.  For every descriptor [d] ([wf_obj d]: the property list
    of an object) in which no key is empty or ["__proto__"] and no key or
    value contains [,] or [=]: decoding the encoding of [d] gives [d]
    again, with the same keys, the same values and the same order of
    enumeration. *)
Theorem parse_build_round_trip (d : NetworkInterface) :
  wf_obj d = true → encodable d = true →
  parseNetworkInterface (buildNetworkInterface d) = d.
Proof.
  intros Hwf Henc. unfold parseNetworkInterface.
  destruct d as [|e d]; [by vm_compute|].
  rewrite split_build by done. by apply (foldl_parse_item_build []).
Qed.

(** ** Further properties of the codec *)

(** X1.  Whatever the input string, decoding returns an object in which no
    key is empty or ["__proto__"] and no key or value contains a separator;
    so encoding what was decoded and decoding it again changes nothing:
    [encode (decode s)] preserves all the keys and values of [decode s]. *)
Theorem parseNetworkInterface_stable (s : string) :
  wf_obj (parseNetworkInterface s) = true
  ∧ encodable (parseNetworkInterface s) = true
  ∧ parseNetworkInterface (buildNetworkInterface (parseNetworkInterface s))
    = parseNetworkInterface s.
Proof.
  destruct (parseNetworkInterface_invariant s) as [Hwf Henc].
  split_and!; [done..|].
  destruct (parseNetworkInterface s) as [|e d] eqn:Hd; [by vm_compute|].
  unfold parseNetworkInterface at 1.
  rewrite split_build by done. by apply (foldl_parse_item_build []).
Qed.

(** X2.  The descriptors that survive encoding and decoding are exactly
    those that the text format can carry. *)
Theorem parse_build_fixed_points (d : NetworkInterface) :
  parseNetworkInterface (buildNetworkInterface d) = d
  ↔ wf_obj d = true ∧ encodable d = true.
Proof.
  split.
  - intros <-. apply parseNetworkInterface_invariant.
  - intros [Hwf Henc]. unfold parseNetworkInterface.
    destruct d as [|e d]; [by vm_compute|].
    rewrite split_build by done. by apply (foldl_parse_item_build []).
Qed.

(** ** Decimal numerals *)

Section numerals.

Lemma to_int_not_nil (n : Z) :
  Z.to_int n ≠ Decimal.Pos Decimal.Nil ∧ Z.to_int n ≠ Decimal.Neg Decimal.Nil.
Proof.
  destruct n as [|p|p]; simpl; split; try discriminate;
    intros [= Hp]; by apply DecimalPos.Unsigned.to_uint_nonnil in Hp.
Qed.

(** The decimal rendering determines the number. *)
Lemma Number_toString_inj (a b : Z) :
  Number_toString a = Number_toString b → a = b.
Proof.
  unfold Number_toString. intros Heq.
  destruct (to_int_not_nil a) as [Ha1 Ha2], (to_int_not_nil b) as [Hb1 Hb2].
  apply DecimalZ.to_int_inj.
  pose proof (NilZero.isi _ Ha1 Ha2) as Hia.
  pose proof (NilZero.isi _ Hb1 Hb2) as Hib.
  rewrite Heq in Hia. congruence.
Qed.

(** A character that is neither a digit nor the sign does not occur in the
    rendering of a number. *)
Lemma contains_string_of_uint (c : ascii) (d : Decimal.uint) :
  digit c = None → contains c (NilEmpty.string_of_uint d) = false.
Proof.
  intros Hc. induction d; simpl; [done|..];
    rewrite IHd, orb_false_r; apply bool_decide_eq_false_2;
    intros <-; vm_compute in Hc; discriminate.
Qed.

Lemma contains_Number_toString (c : ascii) (n : Z) :
  digit c = None → c ≠ "-"%char → contains c (Number_toString n) = false.
Proof.
  intros Hc Hsign. unfold Number_toString.
  assert (Hu : ∀ d, contains c (NilZero.string_of_uint d) = false).
  { intros d. destruct d; try apply (contains_string_of_uint c _ Hc).
    simpl. rewrite orb_false_r. apply bool_decide_eq_false_2.
    intros <-. vm_compute in Hc. discriminate. }
  destruct (Z.to_int n) as [d|d]; simpl; [apply Hu|].
  rewrite Hu, orb_false_r. apply bool_decide_eq_false_2. congruence.
Qed.

Lemma separator_free_Number_toString (n : Z) :
  separator_free (Number_toString n) = true.
Proof.
  unfold separator_free.
  by rewrite !contains_Number_toString.
Qed.

End numerals.

(** ** The rate mutation and the codec together *)

Section rate_codec.
Implicit Types (k v s : string) (o d : NetworkInterface) (r : Z).

Lemma obj_assign_rate v o : obj_assign "rate" v o = obj_define "rate" v o.
Proof. done. Qed.

Lemma wf_obj_delete k o : wf_obj o = true → wf_obj (obj_delete k o) = true.
Proof.
  unfold obj_delete. induction o as [|[k0 v0] o IH]; [done|].
  simpl. intros [Hfirst Hrest]%andb_true_iff.
  rewrite filter_cons. case_decide; simpl in *; [|by apply IH].
  rewrite IH by done. rewrite andb_true_r.
  apply forallb_forall. intros e [_ He]%list_elem_of_In%list_elem_of_filter.
  rewrite forallb_forall in Hfirst. by apply Hfirst, list_elem_of_In.
Qed.

Lemma encodable_delete k o :
  encodable o = true → encodable (obj_delete k o) = true.
Proof.
  unfold encodable, obj_delete. rewrite !forallb_forall.
  intros Hall e [_ He]%list_elem_of_In%list_elem_of_filter.
  by apply Hall, list_elem_of_In.
Qed.

(** Applying a rate to an object that the text format can carry gives such
    an object again. *)
Lemma updateInterfaceRate_invariant d r :
  wf_obj d = true ∧ encodable d = true →
  wf_obj (updateInterfaceRate d r) = true
  ∧ encodable (updateInterfaceRate d r) = true.
Proof.
  intros [Hwf Henc]. unfold updateInterfaceRate. case_bool_decide.
  - split; [by apply wf_obj_delete|by apply encodable_delete].
  - split; [by apply wf_obj_assign|].
    rewrite obj_assign_rate. apply encodable_define; [|done].
    unfold encodable_entry. simpl.
    by rewrite separator_free_Number_toString.
Qed.

Lemma obj_replace_same k v o : obj_get k o = Some v → obj_replace k v o = o.
Proof.
  induction o as [|[k' v'] o IH]; simpl; [done|].
  case_bool_decide; [by intros [= ->]|]. intros Hget. by rewrite IH.
Qed.

Lemma obj_define_twice k v o :
  obj_define k v (obj_define k v o) = obj_define k v o.
Proof.
  pose proof (obj_get_define_eq k v o) as Hget.
  unfold obj_define at 1.
  assert (Hhas : obj_has k (obj_define k v o) = true).
  { apply obj_has_true. by rewrite Hget. }
  rewrite Hhas. by apply obj_replace_same.
Qed.

Lemma obj_delete_absent k o : obj_get k o = None → obj_delete k o = o.
Proof.
  unfold obj_delete. induction o as [|[k' v'] o IH]; simpl; [done|].
  case_bool_decide as Hk; [done|]. intros Hget.
  rewrite filter_cons. simpl. rewrite decide_True by done. by rewrite IH.
Qed.

Lemma to_map_delete k o : to_map (obj_delete k o) = delete k (to_map o).
Proof.
  apply map_eq. intros k'. rewrite lookup_delete, !to_map_lookup.
  case_decide as Hk.
  - subst k'. apply obj_get_delete_eq.
  - by apply obj_get_delete_ne.
Qed.

(** The rate mutation on the descriptor as a map. *)
Lemma to_map_updateInterfaceRate d r :
  to_map (updateInterfaceRate d r)
  = if bool_decide (r = 0%Z) then delete "rate" (to_map d)
    else <["rate" := Number_toString r]> (to_map d).
Proof.
  unfold updateInterfaceRate. case_bool_decide.
  - apply to_map_delete.
  - by apply to_map_assign.
Qed.

Lemma string_app_assoc (s1 s2 s3 : string) :
  (s1 +:+ s2) +:+ s3 = s1 +:+ s2 +:+ s3.
Proof.
  induction s1 as [|c s1 IH]; [done|].
  change (String c ((s1 +:+ s2) +:+ s3) = String c (s1 +:+ s2 +:+ s3)).
  by rewrite IH.
Qed.

Lemma join_snoc sep (ps : list string) (p : string) :
  ps ≠ [] → join sep (ps ++ [p]) = join sep ps +:+ sep +:+ p.
Proof.
  induction ps as [|q ps IH]; [done|]. intros _.
  destruct ps as [|q' ps].
  - done.
  - change ((q :: q' :: ps) ++ [p]) with (q :: (q' :: ps) ++ [p]).
    change ((q' :: ps) ++ [p]) with (q' :: ps ++ [p]) at 1.
    rewrite !join_cons_cons.
    change (q' :: ps ++ [p]) with ((q' :: ps) ++ [p]).
    rewrite IH by done.
    by rewrite !string_app_assoc.
Qed.

(** An element of the key list in terms of lookup. *)
Lemma elem_of_keys k o : k ∈ o.*1 ↔ is_Some (obj_get k o).
Proof.
  rewrite <-not_eq_None_Some, obj_get_None.
  split; [by intros ? ?|]. apply dec_stable.
Qed.

Lemma elem_of_keys_assign k' k v o :
  k ≠ "__proto__" →
  k' ∈ (obj_assign k v o).*1 ↔ k' = k ∨ k' ∈ o.*1.
Proof.
  intros Hk. rewrite !elem_of_keys.
  destruct (decide (k' = k)) as [->|Hne].
  - rewrite obj_get_assign_eq by done. split; [by left|by eexists].
  - rewrite obj_get_assign_ne by done. split; [by right|by intros [?|?]].
Qed.

Lemma elem_of_keys_parse_item k net item :
  k ∈ (parse_item net item).*1
  ↔ k ∈ net.*1
    ∨ (k ≠ "" ∧ k ≠ "__proto__"
       ∧ split "=" item !! 0%nat = Some k
       ∧ is_Some (split "=" item !! 1%nat)).
Proof.
  unfold parse_item.
  destruct (split "=" item !! 0%nat) as [k0|] eqn:Hk0;
    [|split; [by left|by intros [?|(_ & _ & ? & _)]]].
  destruct (split "=" item !! 1%nat) as [v0|] eqn:Hv0;
    [|split; [by left|by intros [?|(_ & _ & _ & [? ?])]]].
  case_bool_decide as Hne;
    [|split; [by left|intros [?|(? & _ & [= ->] & _)]; done]].
  unfold obj_assign. case_bool_decide as Hproto; simpl.
  - destruct (obj_has k0 net) eqn:Hhas; simpl.
    + unfold obj_define. rewrite Hhas, obj_replace_keys.
      split; [by left|intros [?|(_ & ? & [= ->] & _)]; done].
    + split; [by left|intros [?|(_ & ? & [= ->] & _)]; done].
  - pose proof (elem_of_keys_assign k k0 v0 net Hproto) as Hassign.
    unfold obj_assign in Hassign.
    rewrite bool_decide_eq_false_2 in Hassign by done. simpl in Hassign.
    rewrite Hassign. split.
    + intros [->|?]; [right|by left]. by split_and!.
    + intros [?|(_ & _ & [= ->] & _)]; [by right|by left].
Qed.

Lemma elem_of_keys_foldl_parse_item k net items :
  k ∈ (foldl parse_item net items).*1
  ↔ k ∈ net.*1
    ∨ (k ≠ "" ∧ k ≠ "__proto__"
       ∧ ∃ item, item ∈ items
                 ∧ split "=" item !! 0%nat = Some k
                 ∧ is_Some (split "=" item !! 1%nat)).
Proof.
  revert net. induction items as [|item items IH]; intros net; simpl.
  - split; [by left|]. intros [?|(_ & _ & item & Hin & _)]; [done|].
    by apply elem_of_nil in Hin.
  - rewrite IH, elem_of_keys_parse_item. split.
    + intros [[?|(? & ? & ? & ?)]|(? & ? & item' & ? & ? & ?)].
      * by left.
      * right. split_and!; try done. exists item. split_and!; try done.
        by left.
      * right. split_and!; try done. exists item'. split_and!; try done.
        by right.
    + intros [?|(? & ? & item' & [->|?]%elem_of_cons & ? & ?)].
      * by left; left.
      * left; right. by split_and!.
      * right. split_and!; try done. by exists item'.
Qed.

End rate_codec.

Lemma parse_build_inverse (d : NetworkInterface) :
  wf_obj d = true → encodable d = true →
  parseNetworkInterface (buildNetworkInterface d) = d.
Proof.
  intros Hwf Henc. destruct d as [|e d]; [by vm_compute|].
  unfold parseNetworkInterface. rewrite split_build by done.
  by apply (foldl_parse_item_build []).
Qed.

(** Overwriting a property leaves the other entries where they are. *)
Lemma obj_replace_lookup_ne (k v : string) (o : NetworkInterface) (i : nat)
  (k' v' : string) :
  o !! i = Some (k', v') → k' ≠ k → obj_replace k v o !! i = Some (k', v').
Proof.
  revert i. induction o as [|[k0 v0] o IH]; intros i Hi Hne; [done|].
  simpl. destruct i as [|i]; simpl in Hi.
  - simplify_eq. by rewrite bool_decide_eq_false_2.
  - case_bool_decide; [done|]. simpl. by apply IH.
Qed.

(** X3.  Where the rate goes in the encoding, for a rate [r] that is a safe
    integer; what is written for it is the decimal string of [r].  For a
    descriptor without a [rate] key, removing the limit changes nothing,
    and setting a rate appends the segment [rate=r] to the encoding (or
    gives that segment alone, for the empty descriptor); for a descriptor
    with a [rate] key, setting a rate changes the value of [rate] and
    nothing else: the keys are the same, in the same order, and every
    entry with another key stays where it is with the value it has. *)
Theorem updateInterfaceRate_encoding (d : NetworkInterface) (r : Z) :
  is_safe_integer r = true →
  is_decimal_string_of r (Number_toString r) = true
  ∧ (obj_get "rate" d = None →
     updateInterfaceRate d 0 = d
     ∧ (r ≠ 0%Z → d ≠ [] →
        buildNetworkInterface (updateInterfaceRate d r)
        = buildNetworkInterface d +:+ ",rate=" +:+ Number_toString r)
     ∧ (r ≠ 0%Z → d = [] →
        buildNetworkInterface (updateInterfaceRate d r)
        = "rate=" +:+ Number_toString r))
  ∧ (is_Some (obj_get "rate" d) → r ≠ 0%Z →
     (updateInterfaceRate d r).*1 = d.*1
     ∧ obj_get "rate" (updateInterfaceRate d r) = Some (Number_toString r)
     ∧ ∀ (i : nat) (k v : string),
         d !! i = Some (k, v) → k ≠ "rate" →
         updateInterfaceRate d r !! i = Some (k, v)).
Proof.
  intros _. split; [apply Number_toString_decimal|]. split.
  - intros Hnone. split_and!.
    + unfold updateInterfaceRate. rewrite bool_decide_eq_true_2 by done.
      by apply obj_delete_absent.
    + intros Hr Hd. unfold updateInterfaceRate.
      rewrite bool_decide_eq_false_2 by done.
      rewrite obj_assign_rate. unfold obj_define.
      apply obj_has_false in Hnone. rewrite Hnone.
      change (array_index "rate") with (@None N). cbv iota.
      unfold buildNetworkInterface. rewrite map_app. simpl map at 2.
      rewrite join_snoc by (by destruct d).
      done.
    + intros Hr ->. unfold updateInterfaceRate.
      by rewrite bool_decide_eq_false_2.
  - intros Hsome Hr. unfold updateInterfaceRate.
    rewrite bool_decide_eq_false_2 by done. split_and!.
    + rewrite obj_assign_rate. unfold obj_define.
      apply obj_has_true in Hsome. rewrite Hsome. apply obj_replace_keys.
    + by apply obj_get_assign_eq.
    + intros i k v Hi Hk. rewrite obj_assign_rate. unfold obj_define.
      apply obj_has_true in Hsome. rewrite Hsome.
      by apply obj_replace_lookup_ne.
Qed.

(** X6.  The keys of a decoded descriptor, for every input string: a key is
    present exactly when it is not empty, is not ["__proto__"], and is the
    text before the first [=] of a segment that contains an [=]. *)
Theorem parseNetworkInterface_keys (s k : string) :
  k ∈ (parseNetworkInterface s).*1
  ↔ k ≠ "" ∧ k ≠ "__proto__"
    ∧ ∃ segment, segment ∈ split "," s
                 ∧ before_first "=" segment = k
                 ∧ is_Some (after_first "=" segment).
Proof.
  unfold parseNetworkInterface. rewrite elem_of_keys_foldl_parse_item.
  split.
  - intros [Hnil|(Hne & Hproto & item & Hin & Hkey & Hval)];
      [by apply elem_of_nil in Hnil|].
    split_and!; try done. exists item. split_and!; try done.
    + rewrite split_first in Hkey. congruence.
    + rewrite split_second in Hval.
      by destruct (after_first "=" item); [eexists|destruct Hval].
  - intros (Hne & Hproto & item & Hin & Hkey & [rest Hval]).
    right. split_and!; try done. exists item. split_and!; try done.
    + rewrite split_first. congruence.
    + rewrite split_second, Hval. by eexists.
Qed.

(** X7.  What the trigger action writes can be read back: for every current
    descriptor string and every rate, decoding the encoding of the decoded
    descriptor with the rate applied gives that descriptor again. *)
Theorem updateInterfaceRate_round_trip (raw : string) (rate : Z) :
  parseNetworkInterface
    (buildNetworkInterface
       (updateInterfaceRate (parseNetworkInterface raw) rate))
  = updateInterfaceRate (parseNetworkInterface raw) rate.
Proof.
  destruct (updateInterfaceRate_invariant (parseNetworkInterface raw) rate
              (parseNetworkInterface_invariant raw)) as [Hwf Henc].
  by apply parse_build_inverse.
Qed.

(** X8.  Applying two rates one after the other gives, as a map, the
    descriptor that the second rate alone gives; and applying the same rate
    twice gives the very same object as applying it once. *)
Theorem updateInterfaceRate_twice (d : NetworkInterface) (r1 r2 : Z) :
  to_map (updateInterfaceRate (updateInterfaceRate d r1) r2)
  = to_map (updateInterfaceRate d r2)
  ∧ updateInterfaceRate (updateInterfaceRate d r1) r1
    = updateInterfaceRate d r1.
Proof.
  split.
  - rewrite !to_map_updateInterfaceRate.
    repeat case_bool_decide;
      by rewrite ?delete_delete_eq, ?insert_delete_eq, ?delete_insert_eq,
           ?insert_insert_eq.
  - unfold updateInterfaceRate. case_bool_decide.
    + apply obj_delete_absent, obj_get_delete_eq.
    + rewrite !obj_assign_rate. apply obj_define_twice.
Qed.

(** ** Running the effectful code *)

Ltac run :=
  unfold mbind, M_bind, bind, mret, M_ret, ret, throw, try_catch, fetch,
    emit, response_json; simpl.

Section effects.
Context `{Env}.

Lemma extends_refl (s : state) : extends s s.
Proof. exists []. by rewrite app_nil_r. Qed.

Lemma extends_trans (s1 s2 s3 : state) :
  extends s1 s2 → extends s2 s3 → extends s1 s3.
Proof.
  intros [e1 H1] [e2 H2]. exists (e1 ++ e2). by rewrite H2, H1, app_assoc.
Qed.

Lemma appends_ret {A} (a : A) : appends (mret a).
Proof. intros s. apply extends_refl. Qed.

Lemma appends_throw {A} (e : exn) : appends (throw (A := A) e).
Proof. intros s. apply extends_refl. Qed.

Lemma appends_emit (e : event) : appends (emit e).
Proof. intros s. by exists [e]. Qed.

Lemma appends_fetch (r : request) : appends (fetch r).
Proof.
  intros s. unfold fetch. destruct (remote (world s) r) as [o w].
  by exists [Fetch r].
Qed.

Lemma appends_response_json (r : response) : appends (response_json r).
Proof. intros s. apply extends_refl. Qed.

Lemma appends_bind {A B} (m : M A) (k : A → M B) :
  appends m → (∀ a, appends (k a)) → appends (m ≫= k).
Proof.
  intros Hm Hk s. run. specialize (Hm s).
  destruct (m s) as [[a|e] s1]; simpl in *; [|done].
  eapply extends_trans; [done|apply Hk].
Qed.

Lemma appends_try_catch {A} (body : M A) (handler : exn → M A) :
  appends body → (∀ e, appends (handler e)) → appends (try_catch body handler).
Proof.
  intros Hm Hk s. unfold try_catch. specialize (Hm s).
  destruct (body s) as [[a|e] s1]; simpl in *; [done|].
  eapply extends_trans; [done|apply Hk].
Qed.

Lemma appends_cron_schedule (t : task) : appends (cron_schedule t).
Proof.
  intros s. unfold cron_schedule.
  destruct (cron_validate _ _); [apply extends_refl|].
  exists []. simpl. by rewrite app_nil_r.
Qed.

Lemma appends_destructure_data (body : json) : appends (destructure_data body).
Proof. destruct body; first [apply appends_ret | apply appends_throw]. Qed.

Lemma appends_get_member (currentConfig : option json) (k : string) :
  appends (get_member currentConfig k).
Proof.
  unfold get_member.
  repeat case_match; first [apply appends_ret | apply appends_throw].
Qed.

Lemma appends_parseNetworkInterface_any (v : value) :
  appends (parseNetworkInterface_any v).
Proof.
  unfold parseNetworkInterface_any.
  repeat case_match; first [apply appends_ret | apply appends_throw].
Qed.

Ltac appends_step :=
  first
    [ apply appends_ret | apply appends_throw | apply appends_emit
    | apply appends_fetch | apply appends_response_json
    | apply appends_destructure_data | apply appends_get_member
    | apply appends_parseNetworkInterface_any | apply appends_cron_schedule
    | apply appends_bind; [|intros ?]
    | apply appends_try_catch; [|intros ?]
    | match goal with |- appends (if ?b then _ else _) => destruct b end ].

Lemma appends_getCurrentConfig this nodeName type vmId :
  appends (getCurrentConfig this nodeName type vmId).
Proof. unfold getCurrentConfig. repeat appends_step. Qed.

Lemma appends_updateConfig this nodeName type vmId config :
  appends (updateConfig this nodeName type vmId config).
Proof. unfold updateConfig. repeat appends_step. Qed.

Lemma appends_setNetworkInterface client nodeName type vmId iface rate :
  appends (setNetworkInterface client nodeName type vmId iface rate).
Proof.
  unfold setNetworkInterface, setNetworkInterface_try, Logger_error.
  repeat first [ apply appends_getCurrentConfig | apply appends_updateConfig
               | appends_step ].
Qed.

(** The trigger action returns, whatever happens inside it. *)
Lemma setNetworkInterface_returns client nodeName type vmId iface rate s :
  ∃ b s', setNetworkInterface client nodeName type vmId iface rate s
          = (Returned b, s').
Proof.
  unfold setNetworkInterface, try_catch.
  destruct (setNetworkInterface_try _ _ _ _ _ _ s) as [[b|e] s1].
  - by eexists _, _.
  - run. by eexists _, _.
Qed.

End effects.

(** ** The trigger action *)

Section action.
Context `{Env}.
Implicit Types (client this : ProxmoxClient) (nodeName type iface : string)
  (vmId rate : Z) (s : state) (resp : response)
  (members cfg : list (string * json)).

Lemma getCurrentConfig_data this nodeName type vmId s resp w' members :
  remote (world s) (read_request this nodeName type vmId) = (Returned resp, w') →
  ok resp = true →
  json_body resp = Returned (JObj members) →
  getCurrentConfig this nodeName type vmId s
  = (Returned (json_member "data" members),
     {| world := w';
        trace := trace s ++ [Fetch (read_request this nodeName type vmId)];
        tasks := tasks s |}).
Proof.
  intros Hremote Hok Hbody. unfold getCurrentConfig. run.
  fold (read_request this nodeName type vmId). rewrite Hremote, Hok. simpl.
  by rewrite Hbody.
Qed.

Lemma getCurrentConfig_rejected this nodeName type vmId s e w' :
  remote (world s) (read_request this nodeName type vmId) = (Thrown e, w') →
  getCurrentConfig this nodeName type vmId s
  = (Thrown e,
     {| world := w';
        trace := trace s ++ [Fetch (read_request this nodeName type vmId)];
        tasks := tasks s |}).
Proof.
  intros Hremote. unfold getCurrentConfig. run.
  fold (read_request this nodeName type vmId). by rewrite Hremote.
Qed.

Lemma getCurrentConfig_refused this nodeName type vmId s resp w' :
  remote (world s) (read_request this nodeName type vmId)
  = (Returned resp, w') →
  ok resp = false →
  getCurrentConfig this nodeName type vmId s
  = (Thrown (Error ("Failed to get config: "
                    +:+ Number_toString (status resp) +:+ " "
                    +:+ statusText resp)),
     {| world := w';
        trace := trace s ++ [Fetch (read_request this nodeName type vmId)];
        tasks := tasks s |}).
Proof.
  intros Hremote Hok. unfold getCurrentConfig. run.
  fold (read_request this nodeName type vmId). by rewrite Hremote, Hok.
Qed.

Lemma updateConfig_rejected this nodeName type vmId config s e w' :
  remote (world s) (write_request this nodeName type vmId config)
  = (Thrown e, w') →
  updateConfig this nodeName type vmId config s
  = (Thrown e,
     {| world := w';
        trace := trace s
                 ++ [Fetch (write_request this nodeName type vmId config)];
        tasks := tasks s |}).
Proof.
  intros Hremote. unfold updateConfig. run.
  fold (write_request this nodeName type vmId config). by rewrite Hremote.
Qed.

Lemma updateConfig_refused this nodeName type vmId config s resp w' :
  remote (world s) (write_request this nodeName type vmId config)
  = (Returned resp, w') →
  ok resp = false →
  updateConfig this nodeName type vmId config s
  = (Thrown (Error ("Failed to update config: "
                    +:+ Number_toString (status resp) +:+ " "
                    +:+ statusText resp)),
     {| world := w';
        trace := trace s
                 ++ [Fetch (write_request this nodeName type vmId config)];
        tasks := tasks s |}).
Proof.
  intros Hremote Hok. unfold updateConfig. run.
  fold (write_request this nodeName type vmId config).
  by rewrite Hremote, Hok.
Qed.

(** What the [try] block does once the guest configuration has been read. *)
Lemma setNetworkInterface_try_read
  client nodeName type vmId iface rate s resp w' members cfg :
  remote (world s) (read_request client nodeName type vmId)
  = (Returned resp, w') →
  ok resp = true →
  json_body resp = Returned (JObj members) →
  json_member "data" members = Some (JObj cfg) →
  let s1 := {| world := w';
               trace := trace s ++ [Fetch (read_request client nodeName type vmId)];
               tasks := tasks s |} in
  setNetworkInterface_try client nodeName type vmId iface rate s =
  match json_member iface cfg with
  | Some j =>
      if truthy (VJson j) then
        match j with
        | JStr raw =>
            updateConfig client nodeName type vmId
              [(iface, buildNetworkInterface
                         (updateInterfaceRate (parseNetworkInterface raw) rate))]
              s1
        | _ => (Thrown (TypeError "interfaceString.split is not a function"), s1)
        end
      else (Thrown (interface_not_found iface), s1)
  | None =>
      if bool_decide (iface ∈ object_prototype_names)
      then (Thrown (TypeError "interfaceString.split is not a function"), s1)
      else (Thrown (interface_not_found iface), s1)
  end.
Proof.
  intros Hremote Hok Hbody Hdata s1. unfold setNetworkInterface_try.
  unfold mbind at 1, M_bind at 1, bind at 1.
  rewrite (getCurrentConfig_data _ _ _ _ _ _ _ _ Hremote Hok Hbody), Hdata.
  fold s1. unfold get_member. run.
  destruct (json_member iface cfg) as [j|].
  - destruct j as [|[]| | | |]; simpl; try done; by case_bool_decide.
  - by case_bool_decide.
Qed.

(** What the action does with an error thrown in its [try] block. *)
Lemma setNetworkInterface_catches
  client nodeName type vmId iface rate s e s1 :
  setNetworkInterface_try client nodeName type vmId iface rate s = (Thrown e, s1) →
  setNetworkInterface client nodeName type vmId iface rate s
  = (Returned false,
     {| world := world s1;
        trace := trace s1 ++ [failure_line nodeName type vmId iface e];
        tasks := tasks s1 |}).
Proof. intros Htry. unfold setNetworkInterface, try_catch. by rewrite Htry. Qed.

Lemma setNetworkInterface_passes
  client nodeName type vmId iface rate s b s1 :
  setNetworkInterface_try client nodeName type vmId iface rate s = (Returned b, s1) →
  setNetworkInterface client nodeName type vmId iface rate s = (Returned b, s1).
Proof. intros Htry. unfold setNetworkInterface, try_catch. by rewrite Htry. Qed.

Lemma updateConfig_data this nodeName type vmId config s resp w' members :
  remote (world s) (write_request this nodeName type vmId config)
  = (Returned resp, w') →
  ok resp = true →
  json_body resp = Returned (JObj members) →
  updateConfig this nodeName type vmId config s
  = (Returned (is_null (json_member "data" members)),
     {| world := w';
        trace := trace s
                 ++ [Fetch (write_request this nodeName type vmId config)];
        tasks := tasks s |}).
Proof.
  intros Hremote Hok Hbody. unfold updateConfig. run.
  fold (write_request this nodeName type vmId config).
  rewrite Hremote, Hok. simpl. by rewrite Hbody.
Qed.

Lemma is_null_spec (data : option json) :
  is_null data = true ↔ data = Some JNull.
Proof. destruct data as [[]|]; simpl; split; congruence. Qed.

(** The action when the interface is found and the write is answered with
    a success: one read, one write, and the result says whether the write
    was acknowledged with [data: null]. *)
Lemma setNetworkInterface_written
  client nodeName type vmId iface rate s resp0 w0 members0 cfg
  (raw : string) resp w' members :
  let config :=
    [(iface, buildNetworkInterface
               (updateInterfaceRate (parseNetworkInterface raw) rate))] in
  remote (world s) (read_request client nodeName type vmId)
  = (Returned resp0, w0) →
  ok resp0 = true →
  json_body resp0 = Returned (JObj members0) →
  json_member "data" members0 = Some (JObj cfg) →
  json_member iface cfg = Some (JStr raw) → raw ≠ "" →
  remote w0 (write_request client nodeName type vmId config)
  = (Returned resp, w') →
  ok resp = true →
  json_body resp = Returned (JObj members) →
  setNetworkInterface client nodeName type vmId iface rate s
  = (Returned (is_null (json_member "data" members)),
     {| world := w';
        trace := trace s
                 ++ [Fetch (read_request client nodeName type vmId);
                     Fetch (write_request client nodeName type vmId config)];
        tasks := tasks s |}).
Proof.
  intros config Hread Hok0 Hbody0 Hdata Hiface Hraw Hwrite Hok Hbody.
  apply setNetworkInterface_passes.
  rewrite (setNetworkInterface_try_read client nodeName type vmId iface rate
             s resp0 w0 members0 cfg Hread Hok0 Hbody0 Hdata).
  rewrite Hiface. simpl. rewrite bool_decide_eq_true_2 by done.
  fold config.
  match goal with
  | |- updateConfig _ _ _ _ _ ?s1 = _ =>
      rewrite (updateConfig_data client nodeName type vmId config s1 resp w'
                 members Hwrite Hok Hbody)
  end.
  simpl. by rewrite <-app_assoc.
Qed.

(** The callback, in terms of the action it runs. *)
Lemma scheduled_callback_unfold client nodeName (node : Node) iface rate s :
  scheduled_callback client nodeName node iface rate s =
  match
    setNetworkInterface client nodeName (node_type node) (node_id node)
      iface rate
      {| world := world s;
         trace := trace s
                  ++ [Console INFO ("Executing scheduled task: "
                                    +:+ task_label nodeName node iface rate)
                        None];
         tasks := tasks s |}
  with
  | (Returned b, s1) =>
      (Returned tt,
       {| world := world s1;
          trace := trace s1
                   ++ [if b
                       then Console SUCCESS
                              (task_label nodeName node iface rate
                               +:+ " - Applied successfully") None
                       else Console ERROR
                              (task_label nodeName node iface rate
                               +:+ " - Failed to apply") None];
          tasks := tasks s1 |})
  | (Thrown e, s1) => (Thrown e, s1)
  end.
Proof.
  unfold scheduled_callback, Logger_info.
  unfold mbind at 1, M_bind at 1, bind at 1, emit at 1.
  unfold mbind at 1, M_bind at 1, bind at 1.
  destruct (setNetworkInterface _ _ _ _ _ _ _) as [[[]|e] s1]; done.
Qed.

End action.

(** C4, as stated, fails: a response with status 200 whose body is the JSON
    document [null] makes [updateConfig] throw, although the status is a
    success ([const { data } = null] is a [TypeError]). *)
Lemma updateConfig_raises_on_null_body :
  ¬ @raises_exactly_on_non_success scripted.
Proof.
  intros Hclaim.
  destruct (Hclaim pve "n1" "lxc" 106%Z [("net0", "name=eth0,rate=7")]
              (@initial scripted [ok_response JNull]) (response_200 JNull) []
              eq_refl) as [Hthrows _].
  by discriminate Hthrows; eexists _, _.
Qed.

(** C4, amended.  For every response that the write is answered with:
    [updateConfig] throws exactly when the status is not a success, or the
    status is a success and the body cannot be read as JSON or is the JSON
    document [null]; on a status that is not a success the error is the
    one that names the status, on an unreadable body it is the error of
    the JSON reader, on [null] a [TypeError].  In every other case it does
    not throw: it returns [true] if and only if the body is an object
    whose member [data] is [null], and [false] for any other body (a
    [data] that is not [null], a missing one, or a body that is not an
    object).  And the caller then reports a failure although the status
    was a success: in a firing in which the interface is found and the
    write is answered with a success and a [data] that is not [null], the
    callback logs that it failed to apply the rate. *)
Theorem updateConfig_outcome `{Env} (this : ProxmoxClient)
  (nodeName : string) :
  (∀ (type : string) (vmId : Z) (config : list (string * string))
     (s : state) (resp : response) (w' : World),
     remote (world s) (write_request this nodeName type vmId config)
     = (Returned resp, w') →
     let s' := {| world := w';
                  trace := trace s
                           ++ [Fetch (write_request this nodeName type vmId
                                        config)];
                  tasks := tasks s |} in
     ((∃ e s1, updateConfig this nodeName type vmId config s = (Thrown e, s1))
      ↔ ok resp = false
        ∨ (∃ e, json_body resp = Thrown e)
        ∨ json_body resp = Returned JNull)
     ∧ (ok resp = false →
        updateConfig this nodeName type vmId config s
        = (Thrown (Error ("Failed to update config: "
                          +:+ Number_toString (status resp) +:+ " "
                          +:+ statusText resp)), s'))
     ∧ (ok resp = true → ∀ e, json_body resp = Thrown e →
        updateConfig this nodeName type vmId config s = (Thrown e, s'))
     ∧ (ok resp = true → json_body resp = Returned JNull →
        ∃ message,
          updateConfig this nodeName type vmId config s
          = (Thrown (TypeError message), s'))
     ∧ (ok resp = true → ∀ body, json_body resp = Returned body →
        body ≠ JNull →
        ∃ b, updateConfig this nodeName type vmId config s = (Returned b, s')
             ∧ (b = true
                ↔ ∃ members, body = JObj members
                             ∧ json_member "data" members = Some JNull)))
  ∧ (∀ (node : Node) (iface : string) (rate : Z) (s0 : state)
       (resp0 : response) (w0 : World) (members0 cfg : list (string * json))
       (raw : string) (resp : response) (w' : World)
       (members : list (string * json)),
       let type := node_type node in
       let vmId := node_id node in
       let config :=
         [(iface, buildNetworkInterface
                    (updateInterfaceRate (parseNetworkInterface raw) rate))] in
       remote (world s0) (read_request this nodeName type vmId)
       = (Returned resp0, w0) →
       ok resp0 = true →
       json_body resp0 = Returned (JObj members0) →
       json_member "data" members0 = Some (JObj cfg) →
       json_member iface cfg = Some (JStr raw) → raw ≠ "" →
       remote w0 (write_request this nodeName type vmId config)
       = (Returned resp, w') →
       ok resp = true →
       json_body resp = Returned (JObj members) →
       json_member "data" members ≠ Some JNull →
       scheduled_callback this nodeName node iface rate s0
       = (Returned tt,
          {| world := w';
             trace :=
               trace s0
               ++ [Console INFO ("Executing scheduled task: "
                                 +:+ task_label nodeName node iface rate) None;
                   Fetch (read_request this nodeName type vmId);
                   Fetch (write_request this nodeName type vmId config);
                   Console ERROR (task_label nodeName node iface rate
                                  +:+ " - Failed to apply") None];
             tasks := tasks s0 |})).
Proof.
  split.
  - intros type vmId config s resp w' Hremote s'.
    assert (Hrun : updateConfig this nodeName type vmId config s
                   = if ok resp
                     then match json_body resp with
                          | Returned body =>
                              match destructure_data body s' with
                              | (Returned data, s1) =>
                                  (Returned (is_null data), s1)
                              | (Thrown e, s1) => (Thrown e, s1)
                              end
                          | Thrown e => (Thrown e, s')
                          end
                     else (Thrown (Error ("Failed to update config: "
                                          +:+ Number_toString (status resp)
                                          +:+ " " +:+ statusText resp)), s')).
    { unfold updateConfig. run.
      fold (write_request this nodeName type vmId config). rewrite Hremote.
      destruct (ok resp); simpl; [|done].
      by destruct (json_body resp). }
    rewrite Hrun. clear Hrun. split_and!.
    + destruct (ok resp); [|split; [by left|by eexists _, _]].
      destruct (json_body resp) as [body|e].
      * destruct body; simpl; split;
          try (by intros (? & ? & ?)); try (by intros [?|[[? ?]|?]]);
          try (intros _; by eexists _, _); by right; right.
      * split; [right; left; by eexists|by eexists _, _].
    + by intros ->.
    + by intros -> e ->.
    + intros -> ->. by eexists.
    + intros -> body -> Hbody. destruct body as [| | | | |members]; simpl;
        try done;
        try (eexists; split; [done|];
             split; [done|by intros (? & ? & ?)]).
      eexists. split; [done|]. rewrite is_null_spec. split.
      * intros Hnull. by exists members.
      * by intros (? & [= <-] & ?).
  - intros node iface rate s0 resp0 w0 members0 cfg raw resp w' members
      type vmId config Hread Hok0 Hbody0 Hdata Hiface Hraw Hwrite Hok Hbody
      Hnull.
    rewrite scheduled_callback_unfold.
    match goal with
    | |- context [setNetworkInterface _ _ _ _ _ _ ?s1] =>
        rewrite (setNetworkInterface_written this nodeName (node_type node)
                   (node_id node) iface rate s1 resp0 w0 members0 cfg raw
                   resp w' members
                   Hread Hok0 Hbody0 Hdata Hiface Hraw Hwrite Hok Hbody)
    end.
    destruct (is_null (json_member "data" members)) eqn:Hn.
    + by apply is_null_spec in Hn.
    + simpl. by rewrite <-!app_assoc.
Qed.



(** C9.  If the guest configuration maps the interface name to a falsy
    value (the empty string, [0], [false], [null]), the action does what it
    does for an interface that is absent: it makes no write request, logs
    the interface-not-found error and returns [false].  (The comparison is
    with an absent interface whose name is not inherited from
    [Object.prototype].) *)
Theorem setNetworkInterface_falsy_interface `{Env}
  (client : ProxmoxClient) (nodeName type : string) (vmId : Z)
  (iface : string) (rate : Z) (s : state) (resp : response) (w' : World)
  (members cfg : list (string * json)) :
  remote (world s) (read_request client nodeName type vmId)
  = (Returned resp, w') →
  ok resp = true →
  json_body resp = Returned (JObj members) →
  json_member "data" members = Some (JObj cfg) →
  (∃ j, json_member iface cfg = Some j ∧ truthy (VJson j) = false)
  ∨ (json_member iface cfg = None ∧ iface ∉ object_prototype_names) →
  setNetworkInterface client nodeName type vmId iface rate s
  = (Returned false,
     {| world := w';
        trace := trace s ++ [Fetch (read_request client nodeName type vmId);
                             failure_line nodeName type vmId iface
                               (interface_not_found iface)];
        tasks := tasks s |}).
Proof.
  intros Hread Hok Hbody Hdata Hcase.
  pose proof (setNetworkInterface_try_read client nodeName type vmId iface rate
                s resp w' members cfg Hread Hok Hbody Hdata) as Htry.
  cbv zeta in Htry.
  destruct Hcase as [(j & Hj & Hfalsy)|[Hnone Hname]].
  - rewrite Hj, Hfalsy in Htry.
    rewrite (setNetworkInterface_catches _ _ _ _ _ _ _ _ _ Htry).
    simpl. by rewrite <-app_assoc.
  - rewrite Hnone, bool_decide_eq_false_2 in Htry by done.
    rewrite (setNetworkInterface_catches _ _ _ _ _ _ _ _ _ Htry).
    simpl. by rewrite <-app_assoc.
Qed.

(** ** Isolation of the trigger actions *)

Section isolation.
Context `{Env}.
Implicit Types (client : ProxmoxClient) (nodeName type iface : string)
  (vmId rate : Z) (s : state) (node : Node).

(** The callback of a trigger returns: it logs that it runs, runs the
    action, and logs the outcome. *)
Lemma scheduled_callback_returns client nodeName node iface rate s :
  ∃ (b : bool) (s1 : state) (events : list event),
    trace s1
    = trace s
      ++ Console INFO ("Executing scheduled task: "
                       +:+ task_label nodeName node iface rate) None
         :: events
    ∧ scheduled_callback client nodeName node iface rate s
      = (Returned tt,
         {| world := world s1;
            trace := trace s1
                     ++ [if b
                         then Console SUCCESS
                                (task_label nodeName node iface rate
                                 +:+ " - Applied successfully") None
                         else Console ERROR
                                (task_label nodeName node iface rate
                                 +:+ " - Failed to apply") None];
            tasks := tasks s1 |}).
Proof.
  unfold scheduled_callback, Logger_info.
  unfold mbind at 1, M_bind at 1, bind at 1, emit at 1.
  unfold mbind at 1, M_bind at 1, bind at 1.
  match goal with
  | |- context [setNetworkInterface _ _ _ _ _ _ ?s0] =>
      destruct (setNetworkInterface_returns client nodeName (node_type node)
                  (node_id node) iface rate s0) as (b & s1 & Hrun);
      destruct (appends_setNetworkInterface client nodeName (node_type node)
                  (node_id node) iface rate s0) as [events Hevents]
  end.
  rewrite Hrun in Hevents |- *. simpl in Hevents.
  exists b, s1, events. split.
  - by rewrite Hevents, <-app_assoc.
  - by destruct b.
Qed.

(** Firing several triggers runs the callback of each of them. *)
Lemma fire_returns (due : list task) s :
  ∃ s', fire due s = (Returned tt, s')
        ∧ extends s s'
        ∧ ∀ t, t ∈ due → executing_line t ∈ trace s'.
Proof.
  revert s. induction due as [|t due IH]; intros s.
  - exists s. split_and!; [done|apply extends_refl|].
    intros t Ht. by apply elem_of_nil in Ht.
  - unfold fire. simpl. unfold mbind, M_bind, bind.
    destruct (scheduled_callback_returns (task_client t) (task_nodeName t)
                (task_node t) (task_interfaceName t) (task_interfaceValue t) s)
      as (b & s1 & events & Htrace & Hrun).
    unfold run_task at 1. rewrite Hrun.
    match goal with
    | |- context [for_of due run_task ?s2] =>
        destruct (IH s2) as (s' & Hfire & [rest Hrest] & Hall)
    end.
    unfold fire in Hfire. rewrite Hfire. exists s'.
    simpl in Hrest. rewrite Htrace in Hrest.
    split_and!; [done| |].
    + eexists. rewrite Hrest. by rewrite <-!app_assoc.
    + intros t' [->|Ht']%elem_of_cons; [|by apply Hall].
      rewrite Hrest. unfold executing_line.
      rewrite !elem_of_app. left. left. right. by left.
Qed.

End isolation.

(** C6.  For every input, the trigger action never throws past its own
    boundary: it returns a boolean; whatever error arises in its [try]
    block is logged and turned into the result [false] - in particular a
    read that the remote API does not answer or answers with a status that
    is not a success, and a write that meets the same; the callback of the
    trigger never throws either, and logs the outcome; so when several
    triggers fire, the callback of each of them is run, whichever of them
    fail. *)
Theorem setNetworkInterface_isolates_errors `{Env}
  (client : ProxmoxClient) (nodeName type : string) (vmId : Z)
  (iface : string) (rate : Z) (s : state) :
  (∃ (b : bool) (s' : state),
     setNetworkInterface client nodeName type vmId iface rate s
     = (Returned b, s'))
  ∧ (∀ (e : exn) (s1 : state),
       setNetworkInterface_try client nodeName type vmId iface rate s
       = (Thrown e, s1) →
       setNetworkInterface client nodeName type vmId iface rate s
       = (Returned false,
          {| world := world s1;
             trace := trace s1 ++ [failure_line nodeName type vmId iface e];
             tasks := tasks s1 |}))
  ∧ (∀ (e : exn) (w' : World),
       remote (world s) (read_request client nodeName type vmId)
       = (Thrown e, w') →
       setNetworkInterface_try client nodeName type vmId iface rate s
       = (Thrown e,
          {| world := w';
             trace := trace s
                      ++ [Fetch (read_request client nodeName type vmId)];
             tasks := tasks s |}))
  ∧ (∀ (resp : response) (w' : World),
       remote (world s) (read_request client nodeName type vmId)
       = (Returned resp, w') →
       ok resp = false →
       setNetworkInterface_try client nodeName type vmId iface rate s
       = (Thrown (Error ("Failed to get config: "
                         +:+ Number_toString (status resp) +:+ " "
                         +:+ statusText resp)),
          {| world := w';
             trace := trace s
                      ++ [Fetch (read_request client nodeName type vmId)];
             tasks := tasks s |}))
  ∧ (∀ (resp : response) (w' : World) (members cfg : list (string * json))
       (raw : string) (answer : outcome response) (w'' : World),
       let config :=
         [(iface, buildNetworkInterface
                    (updateInterfaceRate (parseNetworkInterface raw) rate))] in
       remote (world s) (read_request client nodeName type vmId)
       = (Returned resp, w') →
       ok resp = true →
       json_body resp = Returned (JObj members) →
       json_member "data" members = Some (JObj cfg) →
       json_member iface cfg = Some (JStr raw) → raw ≠ "" →
       remote w' (write_request client nodeName type vmId config)
       = (answer, w'') →
       match answer with
       | Thrown _ => True
       | Returned resp' => ok resp' = false
       end →
       setNetworkInterface_try client nodeName type vmId iface rate s
       = (Thrown
            match answer with
            | Thrown e => e
            | Returned resp' =>
                Error ("Failed to update config: "
                       +:+ Number_toString (status resp') +:+ " "
                       +:+ statusText resp')
            end,
          {| world := w'';
             trace := trace s
                      ++ [Fetch (read_request client nodeName type vmId);
                          Fetch (write_request client nodeName type vmId
                                   config)];
             tasks := tasks s |}))
  ∧ (∀ node : Node,
       ∃ (b : bool) (s1 : state) (events : list event),
         trace s1
         = trace s
           ++ Console INFO ("Executing scheduled task: "
                            +:+ task_label nodeName node iface rate) None
              :: events
         ∧ scheduled_callback client nodeName node iface rate s
           = (Returned tt,
              {| world := world s1;
                 trace := trace s1
                          ++ [if b
                              then Console SUCCESS
                                     (task_label nodeName node iface rate
                                      +:+ " - Applied successfully") None
                              else Console ERROR
                                     (task_label nodeName node iface rate
                                      +:+ " - Failed to apply") None];
                 tasks := tasks s1 |}))
  ∧ (∀ due : list task,
       ∃ s' : state,
         fire due s = (Returned tt, s')
         ∧ ∀ t : task, t ∈ due → executing_line t ∈ trace s').
Proof.
  split_and!.
  - apply setNetworkInterface_returns.
  - apply setNetworkInterface_catches.
  - intros e w' Hremote. unfold setNetworkInterface_try.
    unfold mbind at 1, M_bind at 1, bind at 1.
    by rewrite (getCurrentConfig_rejected _ _ _ _ _ _ _ Hremote).
  - intros resp w' Hremote Hok. unfold setNetworkInterface_try.
    unfold mbind at 1, M_bind at 1, bind at 1.
    by rewrite (getCurrentConfig_refused _ _ _ _ _ _ _ Hremote Hok).
  - intros resp w' members cfg raw answer w'' config
      Hread Hok Hbody Hdata Hiface Hraw Hwrite Hanswer.
    rewrite (setNetworkInterface_try_read client nodeName type vmId iface rate
               s resp w' members cfg Hread Hok Hbody Hdata).
    rewrite Hiface. simpl. rewrite bool_decide_eq_true_2 by done.
    fold config.
    match goal with
    | |- updateConfig _ _ _ _ _ ?s1 = _ =>
        destruct answer as [resp'|e];
        [ rewrite (updateConfig_refused client nodeName type vmId config s1
                     resp' w'' Hwrite Hanswer)
        | rewrite (updateConfig_rejected client nodeName type vmId config s1
                     e w'' Hwrite) ]
    end; simpl; by rewrite <-app_assoc.
  - intros node. apply scheduled_callback_returns.
  - intros due. destruct (fire_returns due s) as (s' & Hfire & _ & Hall).
    by exists s'.
Qed.

(** ** Registration of the triggers *)

Section registration.
Context `{Env}.

Lemma throws_bind {A B} (m : M A) (k : A → M B) : throws m → throws (m ≫= k).
Proof.
  intros Hm s. destruct (Hm s) as (e & s' & Hrun).
  exists e, s'. unfold mbind, M_bind, bind. by rewrite Hrun.
Qed.

Lemma throws_after_log {A} (tag : severity) (message : string)
  (error : option exn) (m : M A) :
  throws m → throws (emit (Console tag message error);; m).
Proof.
  intros Hm s. unfold mbind, M_bind, bind, emit.
  match goal with |- context [m ?s1] => destruct (Hm s1) as (e & s' & Hrun) end.
  by exists e, s'.
Qed.

(** A loop one of whose iterations always throws does throw (in that
    iteration or in an earlier one). *)
Lemma for_of_throws {A} (xs : list A) (body : A → M unit) (x : A) :
  x ∈ xs → throws (body x) → throws (for_of xs body).
Proof.
  intros Hin Hx. induction xs as [|x0 xs IH]; [by apply elem_of_nil in Hin|].
  intros s. simpl. unfold mbind, M_bind, bind.
  destruct (body x0 s) as [[[]|e] s1] eqn:Hrun; [|by eexists _, _].
  apply elem_of_cons in Hin as [->|Hin].
  - destruct (Hx s) as (e & s' & Hthrown). congruence.
  - by apply IH.
Qed.

Lemma scheduleNetworkUpdate_rejected (this : ScheduleManager)
  (client : ProxmoxClient) (nodeName : string) (node : Node)
  (time iface : string) (rate : Z) (e : exn) :
  cron_validate (cronExpression time) (timezone this) = Some e →
  ∀ s, scheduleNetworkUpdate this client nodeName node time iface rate s
       = (Thrown e, s).
Proof.
  intros Hcron s. unfold scheduleNetworkUpdate, cron_schedule.
  unfold mbind, M_bind, bind. simpl. by rewrite Hcron.
Qed.

Lemma setupNodeSchedules_throws (this : Application) (client : ProxmoxClient)
  (nodeName : string) (node : Node) (time : string)
  (interfaces : list (string * Z)) (iface : string) (rate : Z) :
  (time, interfaces) ∈ node_sched node →
  (iface, rate) ∈ interfaces →
  is_Some (cron_validate (cronExpression time)
             (timezone (scheduleManager this))) →
  throws (setupNodeSchedules this client nodeName node).
Proof.
  intros Htime Hiface [e Hcron]. unfold setupNodeSchedules.
  eapply for_of_throws; [exact Htime|]. cbv beta iota.
  eapply for_of_throws; [exact Hiface|]. cbv beta iota.
  intros s. exists e, s. by apply scheduleNetworkUpdate_rejected.
Qed.

Lemma start_throws (this : Application) (serverUrl : string)
  (serverConfig : ServerConfig) (nodeName : string) (nodes : list Node)
  (node : Node) (time : string) (interfaces : list (string * Z))
  (iface : string) (rate : Z) :
  (serverUrl, serverConfig) ∈ config_servers (config this) →
  (nodeName, nodes) ∈ server_nodes serverConfig →
  node ∈ nodes →
  (time, interfaces) ∈ node_sched node →
  (iface, rate) ∈ interfaces →
  is_Some (cron_validate (cronExpression time)
             (timezone (scheduleManager this))) →
  throws (start this).
Proof.
  intros Hserver Hnodes Hnode Htime Hiface Hcron. unfold start, Logger_info.
  apply throws_after_log, throws_after_log, throws_bind.
  eapply for_of_throws; [exact Hserver|]. cbv beta iota.
  unfold setupServerSchedules, Logger_info. apply throws_after_log.
  eapply for_of_throws; [exact Hnodes|]. cbv beta iota.
  eapply for_of_throws; [exact Hnode|].
  by eapply setupNodeSchedules_throws.
Qed.

(** A digit is not the separator of the time of day. *)
Lemma digit_not_colon (c : ascii) : is_Some (digit c) → c ≠ ":"%char.
Proof. intros [n Hn] ->. vm_compute in Hn. discriminate. Qed.

Lemma cronExpression_HHMM (time : string) :
  is_HHMM time = true →
  ∃ hh mm : string,
    time = hh +:+ ":" +:+ mm
    ∧ cronExpression time = mm +:+ " " +:+ hh +:+ " * * *".
Proof.
  unfold is_HHMM.
  destruct time as [|h1 [|h2 [|sep [|m1 [|m2 [|? ?]]]]]]; try done.
  destruct (digit h1) as [a|] eqn:Hh1; [|done].
  destruct (digit h2) as [b|] eqn:Hh2; [|done].
  destruct (digit m1) as [c|] eqn:Hm1; [|done].
  destruct (digit m2) as [d|] eqn:Hm2; [|done].
  intros [[Hsep _]%andb_true_iff _]%andb_true_iff.
  apply bool_decide_eq_true in Hsep. subst sep.
  exists (String h1 (String h2 "")), (String m1 (String m2 "")).
  split; [done|]. unfold cronExpression. simpl.
  rewrite (bool_decide_eq_false_2 (h1 = ":"%char))
    by (apply digit_not_colon; by rewrite Hh1).
  rewrite (bool_decide_eq_false_2 (h2 = ":"%char))
    by (apply digit_not_colon; by rewrite Hh2).
  rewrite (bool_decide_eq_false_2 (m1 = ":"%char))
    by (apply digit_not_colon; by rewrite Hm1).
  rewrite (bool_decide_eq_false_2 (m2 = ":"%char))
    by (apply digit_not_colon; by rewrite Hm2).
  done.
Qed.

End registration.

(** C7, as stated, fails: the malformed time of day ["07:00:99"] gives
    node-cron the expression that ["07:00"] gives it, so that no node-cron
    that accepts ["07:00"] makes the registration of ["07:00:99"] fail. *)
Lemma registration_accepts_malformed_time :
  is_HHMM "07:00" = true
  ∧ is_HHMM "07:00:99" = false
  ∧ cronExpression "07:00:99" = cronExpression "07:00"
  ∧ ¬ ∃ (E : Env) (w : @World E) (tz : string),
        @cron_validate E (cronExpression "07:00") tz = None
        ∧ @rejects_malformed_times E.
Proof.
  split_and!; [done..|].
  intros (E & w & tz & Haccepted & Hrejects).
  destruct (Hrejects {| timezone := tz |} pve "n1"
              {| node_type := "lxc"; node_id := 106; node_sched := [] |}
              "07:00:99" "net0" 7%Z (initial w) eq_refl) as (e & s' & Hrun).
  unfold scheduleNetworkUpdate, cron_schedule in Hrun.
  unfold mbind, M_bind, bind in Hrun. simpl in Hrun.
  change (cronExpression "07:00:99") with (cronExpression "07:00") in Hrun.
  rewrite Haccepted in Hrun. discriminate.
Qed.

(** C7, amended.  Trigger registration does not itself validate the time
    of day: it hands node-cron the expression made of the second and the
    first of the pieces between the colons (for a well-formed [HH:MM], the
    expression [MM HH * * *]), and it fails exactly when node-cron throws
    on that expression - then with node-cron's error, and with nothing
    registered or logged; otherwise the trigger is registered and the
    registration logged.  A schedule entry that node-cron throws on makes
    [start] throw. *)
Theorem scheduleNetworkUpdate_delegates_validation `{Env}
  (this : ScheduleManager) (client : ProxmoxClient) (nodeName : string)
  (node : Node) (time iface : string) (rate : Z) (s : state) :
  (∀ e : exn,
     cron_validate (cronExpression time) (timezone this) = Some e →
     scheduleNetworkUpdate this client nodeName node time iface rate s
     = (Thrown e, s))
  ∧ (cron_validate (cronExpression time) (timezone this) = None →
     scheduleNetworkUpdate this client nodeName node time iface rate s
     = (Returned tt,
        {| world := world s;
           trace := trace s
                    ++ [Console INFO
                          ("Scheduled " +:+ time +:+ ": "
                           +:+ task_label nodeName node iface rate) None];
           tasks := tasks s
                    ++ [{| task_expression := cronExpression time;
                           task_timezone := timezone this;
                           task_client := client;
                           task_nodeName := nodeName;
                           task_node := node;
                           task_interfaceName := iface;
                           task_interfaceValue := rate |}] |}))
  ∧ (is_HHMM time = true →
     ∃ hh mm : string,
       time = hh +:+ ":" +:+ mm
       ∧ cronExpression time = mm +:+ " " +:+ hh +:+ " * * *")
  ∧ (∀ (app : Application) (serverUrl : string) (serverConfig : ServerConfig)
       (nodes : list Node) (interfaces : list (string * Z)),
       (serverUrl, serverConfig) ∈ config_servers (config app) →
       (nodeName, nodes) ∈ server_nodes serverConfig →
       node ∈ nodes →
       (time, interfaces) ∈ node_sched node →
       (iface, rate) ∈ interfaces →
       is_Some (cron_validate (cronExpression time)
                  (timezone (scheduleManager app))) →
       ∃ (e : exn) (s' : state), start app s = (Thrown e, s')).
Proof.
  split_and!.
  - intros e Hcron. by apply scheduleNetworkUpdate_rejected.
  - intros Hcron. unfold scheduleNetworkUpdate, cron_schedule, Logger_info.
    unfold mbind, M_bind, bind, emit. simpl. by rewrite Hcron.
  - apply cronExpression_HHMM.
  - intros app serverUrl serverConfig nodes interfaces
      Hserver Hnodes Hnode Htime Hiface Hcron.
    by eapply start_throws.
Qed.

(** ** The applied update *)

(** X4.  A firing in which the interface is found and the write is answered
    with a success does one read and one write; what it writes is the
    interface name mapped to the encoding of the decoded current descriptor
    with the rate applied; and it logs a success exactly when the write was
    acknowledged with [data: null]. *)
Theorem scheduled_callback_applies_rate `{Env} (this : ProxmoxClient)
  (nodeName : string) (node : Node) (iface : string) (rate : Z) (s0 : state)
  (resp0 : response) (w0 : World) (members0 cfg : list (string * json))
  (raw : string) (resp : response) (w' : World)
  (members : list (string * json)) :
  let type := node_type node in
  let vmId := node_id node in
  let config :=
    [(iface, buildNetworkInterface
               (updateInterfaceRate (parseNetworkInterface raw) rate))] in
  remote (world s0) (read_request this nodeName type vmId)
  = (Returned resp0, w0) →
  ok resp0 = true →
  json_body resp0 = Returned (JObj members0) →
  json_member "data" members0 = Some (JObj cfg) →
  json_member iface cfg = Some (JStr raw) → raw ≠ "" →
  remote w0 (write_request this nodeName type vmId config)
  = (Returned resp, w') →
  ok resp = true →
  json_body resp = Returned (JObj members) →
  scheduled_callback this nodeName node iface rate s0
  = (Returned tt,
     {| world := w';
        trace :=
          trace s0
          ++ [Console INFO ("Executing scheduled task: "
                            +:+ task_label nodeName node iface rate) None;
              Fetch (read_request this nodeName type vmId);
              Fetch (write_request this nodeName type vmId config);
              if is_null (json_member "data" members)
              then Console SUCCESS (task_label nodeName node iface rate
                                    +:+ " - Applied successfully") None
              else Console ERROR (task_label nodeName node iface rate
                                  +:+ " - Failed to apply") None];
        tasks := tasks s0 |}).
Proof.
  intros type vmId config Hread Hok0 Hbody0 Hdata Hiface Hraw Hwrite Hok Hbody.
  rewrite scheduled_callback_unfold.
  match goal with
  | |- context [setNetworkInterface _ _ _ _ _ _ ?s1] =>
      rewrite (setNetworkInterface_written this nodeName (node_type node)
                 (node_id node) iface rate s1 resp0 w0 members0 cfg raw
                 resp w' members
                 Hread Hok0 Hbody0 Hdata Hiface Hraw Hwrite Hok Hbody)
  end.
  simpl. by rewrite <-!app_assoc.
Qed.

(** ** The schedule compiler *)

Section compiler.
Context `{Env}.

Lemma registers_log (tag : severity) (message : string) (error : option exn) :
  registers (emit (Console tag message error)) [].
Proof. intros s. eexists. split_and!; [done| |done]. simpl. by rewrite app_nil_r. Qed.

Lemma registers_bind (m k : M unit) (ts ts' : list task) :
  registers m ts → registers k ts' → registers (m;; k) (ts ++ ts').
Proof.
  intros Hm Hk s. destruct (Hm s) as (s1 & Hrun1 & Htasks1 & Hworld1).
  destruct (Hk s1) as (s2 & Hrun2 & Htasks2 & Hworld2).
  exists s2. unfold mbind, M_bind, bind. rewrite Hrun1.
  split_and!; [done| |congruence]. by rewrite Htasks2, Htasks1, app_assoc.
Qed.

Lemma registers_then_log (m : M unit) (ts : list task) (tag : severity)
  (message : string) (error : option exn) :
  registers m ts → registers (m;; emit (Console tag message error)) ts.
Proof.
  intros Hm. rewrite <-(app_nil_r ts).
  apply registers_bind; [done|apply registers_log].
Qed.

Lemma registers_for_of {A} (xs : list A) (body : A → M unit)
  (f : A → list task) :
  (∀ x, x ∈ xs → registers (body x) (f x)) →
  registers (for_of xs body) (xs ≫= f).
Proof.
  induction xs as [|x xs IH]; intros Hbody.
  - intros s. exists s. split_and!; [done| |done]. simpl. by rewrite app_nil_r.
  - simpl. apply registers_bind.
    + apply Hbody. by left.
    + apply IH. intros x' Hx'. apply Hbody. by right.
Qed.

Lemma registers_scheduleNetworkUpdate (this : ScheduleManager)
  (client : ProxmoxClient) (nodeName : string) (node : Node)
  (time iface : string) (rate : Z) :
  cron_validate (cronExpression time) (timezone this) = None →
  registers
    (scheduleNetworkUpdate this client nodeName node time iface rate)
    [{| task_expression := cronExpression time;
        task_timezone := timezone this;
        task_client := client;
        task_nodeName := nodeName;
        task_node := node;
        task_interfaceName := iface;
        task_interfaceValue := rate |}].
Proof.
  intros Hcron s. unfold scheduleNetworkUpdate, cron_schedule, Logger_info.
  unfold mbind, M_bind, bind, emit. simpl. rewrite Hcron. by eexists.
Qed.

Lemma registers_setupNodeSchedules (this : Application)
  (client : ProxmoxClient) (nodeName : string) (node : Node) :
  (∀ t, t ∈ node_triggers (scheduleManager this) client nodeName node →
        cron_validate (task_expression t) (task_timezone t) = None) →
  registers (setupNodeSchedules this client nodeName node)
    (node_triggers (scheduleManager this) client nodeName node).
Proof.
  intros Hcron. unfold setupNodeSchedules, node_triggers.
  apply registers_for_of. intros [time interfaces] Htime.
  apply registers_for_of. intros [iface rate] Hiface.
  apply registers_scheduleNetworkUpdate.
  apply (Hcron {| task_expression := cronExpression time;
                  task_timezone := timezone (scheduleManager this);
                  task_client := client;
                  task_nodeName := nodeName;
                  task_node := node;
                  task_interfaceName := iface;
                  task_interfaceValue := rate |}).
  unfold node_triggers. apply list_elem_of_bind.
  exists (time, interfaces). split; [|done].
  apply list_elem_of_bind. exists (iface, rate). split; [|done]. by left.
Qed.

Lemma registers_setupServerSchedules (this : Application)
  (serverUrl : string) (serverConfig : ServerConfig) :
  (∀ t, t ∈ server_triggers (scheduleManager this) serverUrl serverConfig →
        cron_validate (task_expression t) (task_timezone t) = None) →
  registers (setupServerSchedules this serverUrl serverConfig)
    (server_triggers (scheduleManager this) serverUrl serverConfig).
Proof.
  intros Hcron. unfold setupServerSchedules, server_triggers, Logger_info.
  apply (registers_bind _ _ []); [apply registers_log|].
  apply registers_for_of. intros [nodeName nodes] Hnodes.
  apply registers_for_of. intros node Hnode.
  apply registers_setupNodeSchedules. intros t Ht. apply Hcron.
  unfold server_triggers. apply list_elem_of_bind.
  exists (nodeName, nodes). split; [|done].
  apply list_elem_of_bind. by exists node.
Qed.

End compiler.

(** X5.  When node-cron accepts the expression of every schedule entry,
    [start] returns and has registered one trigger per (guest, scheduled time,
    interface) triple of the configuration, in the order of the traversal
    (server, node, guest, time, interface), without calling the remote
    API. *)
Theorem start_registers_triggers `{Env} (app : Application) (s : state) :
  (∀ t, t ∈ triggers app →
        cron_validate (task_expression t) (task_timezone t) = None) →
  ∃ s', start app s = (Returned tt, s')
        ∧ tasks s' = tasks s ++ triggers app
        ∧ world s' = world s.
Proof.
  intros Hcron. revert s. change (registers (start app) (triggers app)).
  unfold start, triggers, Logger_info.
  apply (registers_bind _ _ []); [apply registers_log|].
  apply (registers_bind _ _ []); [apply registers_log|].
  apply registers_then_log.
  apply registers_for_of. intros [serverUrl serverConfig] Hserver.
  apply registers_setupServerSchedules. intros t Ht. apply Hcron.
  unfold triggers. apply list_elem_of_bind. by exists (serverUrl, serverConfig).
Qed.

(** ** What the trigger action does to the outside *)

Section requests.
Context `{Env}.
Implicit Types (client this : ProxmoxClient) (nodeName type iface : string)
  (vmId rate : Z) (s : state).

(** The state after one request. *)
Lemma getCurrentConfig_fetches this nodeName type vmId s :
  ∃ r, getCurrentConfig this nodeName type vmId s
       = (r, {| world := (remote (world s)
                            (read_request this nodeName type vmId)).2;
                trace := trace s
                         ++ [Fetch (read_request this nodeName type vmId)];
                tasks := tasks s |}).
Proof.
  unfold getCurrentConfig, destructure_data. run.
  fold (read_request this nodeName type vmId).
  destruct (remote _ _) as [[resp|e] w']; simpl; [|by eexists].
  destruct (ok resp); simpl; [|by eexists].
  destruct (json_body resp) as [[]|]; simpl; by eexists.
Qed.

Lemma get_member_pure (currentConfig : option json) (k : string) s :
  ∃ r, get_member currentConfig k s = (r, s).
Proof.
  unfold get_member.
  destruct currentConfig as [[]|]; try by eexists.
  destruct (json_member _ _); [by eexists|]. case_bool_decide; by eexists.
Qed.

Lemma parseNetworkInterface_any_truthy (v : value) s :
  truthy v = true →
  (∃ raw, raw ≠ "" ∧ parseNetworkInterface_any v s
                     = (Returned (parseNetworkInterface raw), s))
  ∨ ∃ e, parseNetworkInterface_any v s = (Thrown e, s).
Proof.
  intros Hv. destruct v as [|[]|]; try (right; by eexists).
  left. eexists. split; [|done]. by apply bool_decide_eq_true in Hv.
Qed.

(** The [try] block reads, and then either throws or goes on to write the
    encoding of a decoded non-empty string with the rate applied. *)
Lemma setNetworkInterface_try_cases client nodeName type vmId iface rate s :
  let s1 := {| world := (remote (world s)
                           (read_request client nodeName type vmId)).2;
               trace := trace s
                        ++ [Fetch (read_request client nodeName type vmId)];
               tasks := tasks s |} in
  (∃ e, setNetworkInterface_try client nodeName type vmId iface rate s
        = (Thrown e, s1))
  ∨ ∃ raw, raw ≠ ""
           ∧ setNetworkInterface_try client nodeName type vmId iface rate s
             = updateConfig client nodeName type vmId
                 [(iface, buildNetworkInterface
                            (updateInterfaceRate (parseNetworkInterface raw)
                               rate))] s1.
Proof.
  intros s1. unfold setNetworkInterface_try.
  unfold mbind, M_bind, bind.
  destruct (getCurrentConfig_fetches client nodeName type vmId s) as [r ->].
  fold s1. destruct r as [currentConfig|e]; [|left; by eexists].
  destruct (get_member_pure currentConfig iface s1) as [r Hmember].
  rewrite Hmember. destruct r as [v|e]; [|left; by eexists].
  destruct (truthy v) eqn:Hv; simpl; [|left; by eexists].
  rewrite Hmember.
  destruct (parseNetworkInterface_any_truthy v s1 Hv)
    as [(raw & Hraw & ->)|[e ->]]; [|left; by eexists].
  right. by exists raw.
Qed.

(** What a write that returns [true] was answered. *)
Lemma updateConfig_true this nodeName type vmId config s s' :
  updateConfig this nodeName type vmId config s = (Returned true, s') →
  ∃ resp members,
    remote (world s) (write_request this nodeName type vmId config)
    = (Returned resp, world s')
    ∧ ok resp = true
    ∧ json_body resp = Returned (JObj members)
    ∧ json_member "data" members = Some JNull
    ∧ trace s' = trace s
                 ++ [Fetch (write_request this nodeName type vmId config)]
    ∧ tasks s' = tasks s.
Proof.
  unfold updateConfig, destructure_data. run.
  fold (write_request this nodeName type vmId config).
  destruct (remote _ _) as [[resp|e] w']; simpl; [|done].
  destruct (ok resp) eqn:Hok; simpl; [|done].
  destruct (json_body resp) as [[| | | | |members]|] eqn:Hbody; simpl;
    try done.
  intros [= Hnull <-]. apply is_null_spec in Hnull. by exists resp, members.
Qed.

Lemma updateConfig_fetches this nodeName type vmId config s :
  ∃ r w', updateConfig this nodeName type vmId config s
          = (r, {| world := w';
                   trace := trace s
                            ++ [Fetch (write_request this nodeName type vmId
                                         config)];
                   tasks := tasks s |}).
Proof.
  unfold updateConfig, destructure_data. run.
  fold (write_request this nodeName type vmId config).
  destruct (remote _ _) as [[resp|e] w']; simpl; [|by eexists _, _].
  destruct (ok resp); simpl; [|by eexists _, _].
  destruct (json_body resp) as [[]|]; simpl; by eexists _, _.
Qed.

End requests.

(** X9.  Whatever the environment and the arguments, the trigger action
    leaves the registered triggers alone and does to the outside one of
    three things: a read and a logged failure; a read, a write and a logged
    failure; or a read and a write.  It never writes before it has read,
    never writes twice, and what it writes is always the one interface
    name mapped to the encoding of a decoded non-empty descriptor string
    with the rate applied.  It logs nothing when it returns [true]. *)
Theorem setNetworkInterface_requests `{Env}
  (client : ProxmoxClient) (nodeName type : string) (vmId : Z)
  (iface : string) (rate : Z) (s : state) :
  ∃ (b : bool) (s' : state),
    setNetworkInterface client nodeName type vmId iface rate s
    = (Returned b, s')
    ∧ tasks s' = tasks s
    ∧ ((∃ e, b = false
             ∧ trace s'
               = trace s ++ [Fetch (read_request client nodeName type vmId);
                             failure_line nodeName type vmId iface e])
       ∨ ∃ raw : string,
           raw ≠ ""
           ∧ ((∃ e, b = false
                    ∧ trace s'
                      = trace s
                        ++ [Fetch (read_request client nodeName type vmId);
                            Fetch (write_request client nodeName type vmId
                                     [(iface,
                                       buildNetworkInterface
                                         (updateInterfaceRate
                                            (parseNetworkInterface raw)
                                            rate))]);
                            failure_line nodeName type vmId iface e])
              ∨ trace s'
                = trace s
                  ++ [Fetch (read_request client nodeName type vmId);
                      Fetch (write_request client nodeName type vmId
                               [(iface,
                                 buildNetworkInterface
                                   (updateInterfaceRate
                                      (parseNetworkInterface raw) rate))])])).
Proof.
  destruct (setNetworkInterface_try_cases client nodeName type vmId iface
              rate s) as [[e Htry]|(raw & Hraw & Htry)].
  - rewrite (setNetworkInterface_catches _ _ _ _ _ _ _ _ _ Htry).
    eexists _, _. split; [done|]. split; [done|]. left. exists e.
    split; [done|]. simpl. by rewrite <-app_assoc.
  - match type of Htry with
    | _ = updateConfig _ _ _ _ ?config ?s1 =>
        destruct (updateConfig_fetches client nodeName type vmId config s1)
          as ([b|e] & w' & Hwrite)
    end; rewrite Hwrite in Htry.
    + rewrite (setNetworkInterface_passes _ _ _ _ _ _ _ _ _ Htry).
      eexists _, _. split; [done|]. split; [done|]. right. exists raw.
      split; [done|]. right. simpl. by rewrite <-app_assoc.
    + rewrite (setNetworkInterface_catches _ _ _ _ _ _ _ _ _ Htry).
      eexists _, _. split; [done|]. split; [done|]. right. exists raw.
      split; [done|]. left. exists e. split; [done|]. simpl.
      by rewrite <-!app_assoc.
Qed.

(** X10.  The trigger action returns [true] only if the remote API answered
    its write with a success status and a body whose member [data] is
    [null]: it has then made exactly one read and one write, and logged
    nothing. *)
Theorem setNetworkInterface_true `{Env}
  (client : ProxmoxClient) (nodeName type : string) (vmId : Z)
  (iface : string) (rate : Z) (s s' : state) :
  setNetworkInterface client nodeName type vmId iface rate s
  = (Returned true, s') →
  ∃ (answer : outcome response) (w : World) (raw : string)
    (resp : response) (members : list (string * json)),
    let config :=
      [(iface, buildNetworkInterface
                 (updateInterfaceRate (parseNetworkInterface raw) rate))] in
    remote (world s) (read_request client nodeName type vmId) = (answer, w)
    ∧ raw ≠ ""
    ∧ remote w (write_request client nodeName type vmId config)
      = (Returned resp, world s')
    ∧ ok resp = true
    ∧ json_body resp = Returned (JObj members)
    ∧ json_member "data" members = Some JNull
    ∧ trace s'
      = trace s ++ [Fetch (read_request client nodeName type vmId);
                    Fetch (write_request client nodeName type vmId config)]
    ∧ tasks s' = tasks s.
Proof.
  intros Hrun.
  destruct (setNetworkInterface_try_cases client nodeName type vmId iface
              rate s) as [[e Htry]|(raw & Hraw & Htry)].
  { by rewrite (setNetworkInterface_catches _ _ _ _ _ _ _ _ _ Htry) in Hrun. }
  unfold setNetworkInterface, try_catch in Hrun. rewrite Htry in Hrun.
  destruct (updateConfig _ _ _ _ _ _) as [[b|e] s1] eqn:Hwrite;
    [|by run]. simplify_eq.
  apply updateConfig_true in Hwrite
    as (resp & members & Hremote & Hok & Hbody & Hdata & Htrace & Htasks).
  simpl in *.
  destruct (remote (world s) (read_request client nodeName type vmId))
    as [answer w] eqn:Hread.
  exists answer, w, raw, resp, members. simpl.
  split_and!; try done. by rewrite Htrace, <-app_assoc.
Qed.

(** X11.  When the read is answered with a success status but the answer is
    of no use, the trigger action writes nothing, logs the error and
    returns [false]; the error is not the interface-not-found one.  A body
    that cannot be read as JSON gives the error of the JSON reader; a body
    without a configuration (no member [data], [data: null], or not an
    object at all) gives a [TypeError]; and so does a configuration whose
    member of the interface name is truthy but not a string. *)
Theorem setNetworkInterface_unusable_answer `{Env}
  (client : ProxmoxClient) (nodeName type : string) (vmId : Z)
  (iface : string) (rate : Z) (s : state) (resp : response) (w' : World) :
  remote (world s) (read_request client nodeName type vmId)
  = (Returned resp, w') →
  ok resp = true →
  let failed e :=
    setNetworkInterface client nodeName type vmId iface rate s
    = (Returned false,
       {| world := w';
          trace := trace s
                   ++ [Fetch (read_request client nodeName type vmId);
                       failure_line nodeName type vmId iface e];
          tasks := tasks s |}) in
  (∀ e, json_body resp = Thrown e → failed e)
  ∧ (∀ body, json_body resp = Returned body →
             carries_no_configuration body = true →
             ∃ message, failed (TypeError message))
  ∧ (∀ members cfg j,
       json_body resp = Returned (JObj members) →
       json_member "data" members = Some (JObj cfg) →
       json_member iface cfg = Some j →
       truthy (VJson j) = true →
       (∀ raw, j ≠ JStr raw) →
       ∃ message, failed (TypeError message)).
Proof.
  intros Hremote Hok failed. subst failed. split_and!.
  - intros e Hbody.
    unfold setNetworkInterface, setNetworkInterface_try, getCurrentConfig,
      Logger_error, failure_line.
    run. fold (read_request client nodeName type vmId).
    rewrite Hremote, Hok. simpl. rewrite Hbody. simpl.
    by rewrite <-app_assoc.
  - intros body Hbody Hnone.
    unfold setNetworkInterface, setNetworkInterface_try, getCurrentConfig,
      destructure_data, get_member, Logger_error, failure_line.
    run. fold (read_request client nodeName type vmId).
    rewrite Hremote, Hok. simpl. rewrite Hbody. simpl.
    destruct body as [| | | | |members]; simpl in *;
      try (eexists; by rewrite <-app_assoc).
    destruct (json_member "data" members) as [[]|]; simpl in *; try done;
      eexists; by rewrite <-app_assoc.
  - intros members cfg j Hbody Hdata Hiface Hj Hstr.
    rewrite (setNetworkInterface_catches client nodeName type vmId iface rate
               s (TypeError "interfaceString.split is not a function")
               {| world := w';
                  trace := trace s
                           ++ [Fetch (read_request client nodeName type vmId)];
                  tasks := tasks s |}).
    + eexists. simpl. by rewrite <-app_assoc.
    + rewrite (setNetworkInterface_try_read client nodeName type vmId iface
                 rate s resp w' members cfg Hremote Hok Hbody Hdata).
      rewrite Hiface, Hj. destruct j; try done. by edestruct Hstr.
Qed.

(** ** The credentials and the console *)

Section credentials.
Context `{Env}.

Lemma console_app (l1 l2 : list event) :
  console (l1 ++ l2) = console l1 ++ console l2.
Proof. apply List.filter_app. Qed.

Lemma agree_ret {A} (a : A) : agree (mret a) (mret a).
Proof. by intros s1 s2 Hs. Qed.

Lemma agree_throw {A} (e : exn) : agree (throw (A := A) e) (throw e).
Proof. by intros s1 s2 Hs. Qed.

Lemma agree_bind {A B} (m1 m2 : M A) (k1 k2 : A → M B) :
  agree m1 m2 → (∀ a, agree (k1 a) (k2 a)) → agree (m1 ≫= k1) (m2 ≫= k2).
Proof.
  intros Hm Hk s1 s2 Hs. destruct (Hm s1 s2 Hs) as [Hr Hs']. revert Hr Hs'.
  run. destruct (m1 s1) as [[a|e] s1'], (m2 s2) as [r2 s2']; simpl;
    intros <- Hs'; [by apply Hk|done].
Qed.

Lemma agree_try_catch {A} (body1 body2 : M A) (handler1 handler2 : exn → M A) :
  agree body1 body2 → (∀ e, agree (handler1 e) (handler2 e)) →
  agree (try_catch body1 handler1) (try_catch body2 handler2).
Proof.
  intros Hm Hk s1 s2 Hs. destruct (Hm s1 s2 Hs) as [Hr Hs']. revert Hr Hs'.
  unfold try_catch.
  destruct (body1 s1) as [[a|e] s1'], (body2 s2) as [r2 s2']; simpl;
    intros <- Hs'; [done|by apply Hk].
Qed.

Lemma agree_emit (e : event) : agree (emit e) (emit e).
Proof.
  intros s1 s2 [Hw Hc]. split; [done|]. split; [done|]. simpl.
  by rewrite !console_app, Hc.
Qed.

Lemma agree_fetch (r1 r2 : request) :
  (∀ w, remote w r1 = remote w r2) → agree (fetch r1) (fetch r2).
Proof.
  intros Hr s1 s2 [Hw Hc]. unfold fetch. rewrite Hw, Hr.
  destruct (remote _ _) as [answer w']. simpl. split; [done|].
  split; [done|]. simpl. rewrite !console_app, Hc. simpl.
  by rewrite !app_nil_r.
Qed.

Lemma agree_response_json (r : response) :
  agree (response_json r) (response_json r).
Proof. by intros s1 s2 Hs. Qed.

Lemma agree_destructure_data (body : json) :
  agree (destructure_data body) (destructure_data body).
Proof. by intros s1 s2 Hs; destruct body. Qed.

Lemma agree_get_member (currentConfig : option json) (k : string) :
  agree (get_member currentConfig k) (get_member currentConfig k).
Proof.
  intros s1 s2 Hs. unfold get_member.
  destruct currentConfig as [[]|]; try done.
  destruct (json_member _ _); [done|]. by case_bool_decide.
Qed.

Lemma agree_parseNetworkInterface_any (v : value) :
  agree (parseNetworkInterface_any v) (parseNetworkInterface_any v).
Proof. by intros s1 s2 Hs; destruct v as [|[]|]. Qed.

Lemma getConfigUrl_host (c1 c2 : ProxmoxClient) nodeName type vmId :
  host c1 = host c2 →
  getConfigUrl c1 nodeName type vmId = getConfigUrl c2 nodeName type vmId.
Proof. unfold getConfigUrl. by intros ->. Qed.

Ltac agree_step :=
  first
    [ apply agree_ret | apply agree_throw | apply agree_emit
    | apply agree_response_json | apply agree_destructure_data
    | apply agree_get_member | apply agree_parseNetworkInterface_any
    | apply agree_bind; [|intros ?]
    | apply agree_try_catch; [|intros ?] ].

Lemma agree_getCurrentConfig (c1 c2 : ProxmoxClient) nodeName type vmId :
  host c1 = host c2 → answers_alike c1 c2 →
  agree (getCurrentConfig c1 nodeName type vmId)
    (getCurrentConfig c2 nodeName type vmId).
Proof.
  intros Hhost Halike. unfold getCurrentConfig.
  rewrite (getConfigUrl_host c1 c2) by done.
  apply agree_bind; [by apply agree_fetch|]. intros resp.
  destruct (negb (ok resp)); repeat agree_step.
Qed.

Lemma agree_updateConfig (c1 c2 : ProxmoxClient) nodeName type vmId config :
  host c1 = host c2 → answers_alike c1 c2 →
  agree (updateConfig c1 nodeName type vmId config)
    (updateConfig c2 nodeName type vmId config).
Proof.
  intros Hhost Halike. unfold updateConfig.
  rewrite (getConfigUrl_host c1 c2) by done.
  apply agree_bind; [by apply agree_fetch|]. intros resp.
  destruct (negb (ok resp)); repeat agree_step.
Qed.

Lemma agree_setNetworkInterface (c1 c2 : ProxmoxClient)
  nodeName type vmId iface rate :
  host c1 = host c2 → answers_alike c1 c2 →
  agree (setNetworkInterface c1 nodeName type vmId iface rate)
    (setNetworkInterface c2 nodeName type vmId iface rate).
Proof.
  intros Hhost Halike.
  unfold setNetworkInterface, setNetworkInterface_try, Logger_error.
  apply agree_try_catch; [|intros e; repeat agree_step].
  apply agree_bind; [by apply agree_getCurrentConfig|]. intros currentConfig.
  apply agree_bind; [apply agree_get_member|]. intros present.
  destruct (negb (truthy present)); [apply agree_throw|].
  apply agree_bind; [apply agree_get_member|]. intros raw.
  apply agree_bind; [apply agree_parseNetworkInterface_any|]. intros net.
  by apply agree_updateConfig.
Qed.

End credentials.

(** X12.  The credentials of the client reach the console only through the
    answers of the remote API: two clients for the same host whose requests
    the remote API answers alike, started on the same trigger in the same
    state, end with the same result, the same remote world and the same
    console output, line for line. *)
Theorem scheduled_callback_hides_credentials `{Env}
  (c1 c2 : ProxmoxClient) (nodeName : string) (node : Node)
  (iface : string) (rate : Z) (s : state) :
  host c1 = host c2 →
  answers_alike c1 c2 →
  (scheduled_callback c1 nodeName node iface rate s).1
  = (scheduled_callback c2 nodeName node iface rate s).1
  ∧ world (scheduled_callback c1 nodeName node iface rate s).2
    = world (scheduled_callback c2 nodeName node iface rate s).2
  ∧ console (trace (scheduled_callback c1 nodeName node iface rate s).2)
    = console (trace (scheduled_callback c2 nodeName node iface rate s).2).
Proof.
  intros Hhost Halike.
  cut (agree (scheduled_callback c1 nodeName node iface rate)
         (scheduled_callback c2 nodeName node iface rate)).
  { intros Hagree. destruct (Hagree s s) as (? & ? & ?); by split_and?. }
  unfold scheduled_callback, Logger_info, Logger_success, Logger_error.
  apply agree_bind; [apply agree_emit|]. intros _.
  apply agree_bind; [by apply agree_setNetworkInterface|].
  intros []; apply agree_emit.
Qed.

(** ** Registration that stops half-way *)

Section partial_registration.
Context `{Env}.

Lemma registers_until_log (tag : severity) (message : string)
  (error : option exn) :
  registers_until (emit (Console tag message error)) [].
Proof.
  intros s. exists 0%nat. eexists _, _. split; [done|]. simpl.
  split_and!; [by rewrite app_nil_r|done| |done].
  by intros t ?%elem_of_nil.
Qed.

Lemma registers_until_bind (m k : M unit) (ts ts' : list task) :
  registers_until m ts → registers_until k ts' →
  registers_until (m;; k) (ts ++ ts').
Proof.
  intros Hm Hk s.
  destruct (Hm s) as (n & r & s1 & Hrun & Htasks & Hworld & Hok & Hr).
  unfold mbind, M_bind, bind. rewrite Hrun. destruct r as [[]|e].
  - subst n. rewrite firstn_all in Htasks, Hok.
    destruct (Hk s1)
      as (n' & r' & s2 & Hrun' & Htasks' & Hworld' & Hok' & Hr').
    exists (length ts + n')%nat, r', s2. rewrite take_app_add.
    split_and!; [done| |congruence| |].
    + by rewrite Htasks', Htasks, app_assoc.
    + intros t [?|?]%elem_of_app; auto.
    + destruct r' as [[]|e]; [rewrite length_app; lia|].
      destruct Hr' as (t & Ht & He). exists t. split; [|done].
      by rewrite lookup_app_r, Nat.add_comm, Nat.add_sub by lia.
  - destruct Hr as (t & Ht & He). exists n, (Thrown e), s1.
    pose proof (lookup_lt_Some _ _ _ Ht) as Hlt.
    rewrite take_app_le by lia.
    split_and!; try done. exists t. split; [|done].
    by rewrite lookup_app_l.
Qed.

Lemma registers_until_then_log (m : M unit) (ts : list task) (tag : severity)
  (message : string) (error : option exn) :
  registers_until m ts →
  registers_until (m;; emit (Console tag message error)) ts.
Proof.
  intros Hm. rewrite <-(app_nil_r ts).
  apply registers_until_bind; [done|apply registers_until_log].
Qed.

Lemma registers_until_for_of {A} (xs : list A) (body : A → M unit)
  (f : A → list task) :
  (∀ x, registers_until (body x) (f x)) →
  registers_until (for_of xs body) (xs ≫= f).
Proof.
  intros Hbody. induction xs as [|x xs IH].
  - intros s. exists 0%nat, (Returned tt), s. simpl.
    split_and!; [done|by rewrite app_nil_r|done| |done].
    by intros t ?%elem_of_nil.
  - simpl. by apply registers_until_bind.
Qed.

Lemma registers_until_scheduleNetworkUpdate (this : ScheduleManager)
  (client : ProxmoxClient) (nodeName : string) (node : Node)
  (time iface : string) (rate : Z) :
  registers_until
    (scheduleNetworkUpdate this client nodeName node time iface rate)
    [{| task_expression := cronExpression time;
        task_timezone := timezone this;
        task_client := client;
        task_nodeName := nodeName;
        task_node := node;
        task_interfaceName := iface;
        task_interfaceValue := rate |}].
Proof.
  intros s. unfold scheduleNetworkUpdate, cron_schedule, Logger_info.
  unfold mbind, M_bind, bind, emit. simpl.
  destruct (cron_validate (cronExpression time) (timezone this))
    as [e|] eqn:Hcron.
  - exists 0%nat. eexists _, _. split; [done|]. simpl.
    split_and!; [by rewrite app_nil_r|done|by intros t ?%elem_of_nil|].
    eexists. by split.
  - exists 1%nat. eexists _, _. split; [done|]. simpl.
    split_and!; [done|done| |done].
    by intros t ->%list_elem_of_singleton.
Qed.

Lemma registers_until_setupNodeSchedules (this : Application)
  (client : ProxmoxClient) (nodeName : string) (node : Node) :
  registers_until (setupNodeSchedules this client nodeName node)
    (node_triggers (scheduleManager this) client nodeName node).
Proof.
  unfold setupNodeSchedules, node_triggers.
  apply registers_until_for_of. intros [time interfaces].
  apply registers_until_for_of. intros [iface rate].
  apply registers_until_scheduleNetworkUpdate.
Qed.

Lemma registers_until_setupServerSchedules (this : Application)
  (serverUrl : string) (serverConfig : ServerConfig) :
  registers_until (setupServerSchedules this serverUrl serverConfig)
    (server_triggers (scheduleManager this) serverUrl serverConfig).
Proof.
  unfold setupServerSchedules, server_triggers, Logger_info.
  apply (registers_until_bind _ _ []); [apply registers_until_log|].
  apply registers_until_for_of. intros [nodeName nodes].
  apply registers_until_for_of. intros node.
  apply registers_until_setupNodeSchedules.
Qed.

End partial_registration.

(** X13.  [start] registers the triggers of the configuration in the order
    of the traversal until node-cron rejects one.  Either it returns, and
    every trigger is registered; or it throws the error that node-cron gave
    for the first trigger it rejects, and the triggers before that one stay
    registered: a rejected entry does not undo the registrations made
    before it, and no later entry is tried.  The remote API is not
    called. *)
Theorem start_registers_until_rejected `{Env} (app : Application)
  (s : state) :
  ∃ (n : nat) (r : outcome unit) (s' : state),
    start app s = (r, s')
    ∧ tasks s' = tasks s ++ take n (triggers app)
    ∧ world s' = world s
    ∧ (∀ t, t ∈ take n (triggers app) →
            cron_validate (task_expression t) (task_timezone t) = None)
    ∧ match r with
      | Returned _ => n = length (triggers app)
      | Thrown e =>
          ∃ t, triggers app !! n = Some t
               ∧ cron_validate (task_expression t) (task_timezone t) = Some e
      end.
Proof.
  revert s. change (registers_until (start app) (triggers app)).
  unfold start, triggers, Logger_info.
  apply (registers_until_bind _ _ []); [apply registers_until_log|].
  apply (registers_until_bind _ _ []); [apply registers_until_log|].
  apply registers_until_then_log.
  apply registers_until_for_of. intros [serverUrl serverConfig].
  apply registers_until_setupServerSchedules.
Qed.

(** X14.  The cron expression of a schedule entry is made of the first two
    pieces of its time between colons, the second before the first: the
    time [hh:mm] gives minute [mm] and hour [hh], what follows a second
    colon is ignored, and a time without a colon gives the minute
    ["undefined"]. *)
Theorem cronExpression_pieces (hh mm rest : string) :
  contains ":" hh = false → contains ":" mm = false →
  cronExpression (hh +:+ ":" +:+ mm) = mm +:+ " " +:+ hh +:+ " * * *"
  ∧ cronExpression (hh +:+ ":" +:+ mm +:+ ":" +:+ rest)
    = mm +:+ " " +:+ hh +:+ " * * *"
  ∧ cronExpression hh = "undefined " +:+ hh +:+ " * * *".
Proof.
  intros Hhh Hmm. unfold cronExpression.
  change (":" +:+ mm +:+ ":" +:+ rest) with (String ":" (mm +:+ String ":" rest)).
  change (":" +:+ mm) with (String ":" mm). split_and!.
  - by rewrite split_app, (split_absent _ mm).
  - by rewrite !split_app.
  - by rewrite split_absent.
Qed.

(** Two texts cut at the first occurrence of a separator. *)
Lemma app_sep_inj (c : ascii) (s1 s2 p1 p2 : string) :
  contains c s1 = false → contains c s2 = false →
  s1 +:+ String c "" +:+ p1 = s2 +:+ String c "" +:+ p2 →
  s1 = s2 ∧ p1 = p2.
Proof.
  intros H1 H2. change (String c "" +:+ ?x) with (String c x). intros Heq.
  pose proof (f_equal (before_first c) Heq) as Hb.
  pose proof (f_equal (after_first c) Heq) as Ha.
  rewrite !before_first_app in Hb by done.
  rewrite !after_first_app in Ha by done. by simplify_eq.
Qed.

(** X15.  The configuration URLs of one client tell the guests apart: for
    node names and guest types without a slash, two URLs are equal only if
    the node name, the guest type and the guest id are. *)
Theorem getConfigUrl_inj (this : ProxmoxClient)
  (nodeName1 type1 nodeName2 type2 : string) (vmId1 vmId2 : Z) :
  contains "/" nodeName1 = false → contains "/" type1 = false →
  contains "/" nodeName2 = false → contains "/" type2 = false →
  getConfigUrl this nodeName1 type1 vmId1
  = getConfigUrl this nodeName2 type2 vmId2 →
  nodeName1 = nodeName2 ∧ type1 = type2 ∧ vmId1 = vmId2.
Proof.
  intros Hn1 Ht1 Hn2 Ht2. unfold getConfigUrl.
  intros Hurl%(inj (String.app _))%(inj (String.app _)).
  apply app_sep_inj in Hurl as [Hn Hurl]; [|done..].
  apply app_sep_inj in Hurl as [Ht Hurl]; [|done..].
  apply app_sep_inj in Hurl as [Hid _];
    [|apply contains_Number_toString; [done|by intros [=]]..].
  by apply Number_toString_inj in Hid.
Qed.

(** ** The theorems at concrete inputs *)

Lemma updateInterfaceRate_sets_rate_witness :
  obj_get "rate" (updateInterfaceRate [("model", "virtio"); ("rate", "5")] 0)
  = None
  ∧ (is_safe_integer 7 = true
     ∧ obj_get "rate"
         (updateInterfaceRate [("model", "virtio"); ("rate", "5")] 7)
       = Some "7"
     ∧ is_decimal_string_of 7 "7" = true)
  ∧ obj_get "model" (updateInterfaceRate [("model", "virtio"); ("rate", "5")] 7)
    = Some "virtio".
Proof.
  pose proof (updateInterfaceRate_sets_rate [("model", "virtio"); ("rate", "5")])
    as (H0 & Hr & Hk).
  split; [exact H0|]. split.
  - split; [reflexivity|]. apply (Hr 7%Z); [lia|reflexivity].
  - apply (Hk 7%Z "model"). discriminate.
Defined.

Lemma updateInterfaceRate_ref_frame_witness :
  ({[1%positive := [("model", "virtio"); ("rate", "5")]]}
     : gmap positive NetworkInterface) !! 1%positive
  = Some [("model", "virtio"); ("rate", "5")]
  ∧ ∃ h' updatedNet,
      updateInterfaceRate_ref
        {[1%positive := [("model", "virtio"); ("rate", "5")]]} 1 0
      = Some (h', updatedNet)
      ∧ h' !! 1%positive = Some [("model", "virtio"); ("rate", "5")]
      ∧ ({[1%positive := [("model", "virtio"); ("rate", "5")]]}
           : gmap positive NetworkInterface) !! updatedNet = None
      ∧ h' !! updatedNet
        = Some (updateInterfaceRate [("model", "virtio"); ("rate", "5")] 0)
      ∧ ∀ l, l ≠ updatedNet →
             h' !! l
             = ({[1%positive := [("model", "virtio"); ("rate", "5")]]}
                  : gmap positive NetworkInterface) !! l.
Proof.
  split; [reflexivity|].
  apply (updateInterfaceRate_ref_frame
           {[1%positive := [("model", "virtio"); ("rate", "5")]]}
           1%positive 0%Z [("model", "virtio"); ("rate", "5")]).
  reflexivity.
Defined.

Lemma parseNetworkInterface_reads_segments_witness :
  Forall (λ segment, before_first "=" segment ≠ "__proto__")
    (split "," "rate=5,mtu=1500=x")
  ∧ to_map (parseNetworkInterface "rate=5,mtu=1500=x")
    = decode_with code_segment "rate=5,mtu=1500=x".
Proof.
  assert (Hs : Forall (λ segment, before_first "=" segment ≠ "__proto__")
                 (split "," "rate=5,mtu=1500=x")).
  { vm_compute. repeat (constructor; [discriminate|]). constructor. }
  split; [exact Hs|].
  exact (proj1 (parseNetworkInterface_reads_segments "rate=5,mtu=1500=x" Hs)).
Defined.

Lemma parseNetworkInterface_last_wins_witness :
  obj_get "rate" (parseNetworkInterface "rate=1,mtu=9,rate=2,rate") = Some "2".
Proof.
  apply (parseNetworkInterface_last_wins
           "rate=1,mtu=9,rate=2,rate" "rate" "2" 2 "rate=2");
    try discriminate; try reflexivity.
  intros j' s' Hj' Hs' _.
  destruct j' as [|[|[|[|j']]]]; try lia.
  - vm_compute in Hs'. injection Hs' as <-. reflexivity.
  - vm_compute in Hs'. discriminate.
Defined.

Lemma parse_build_round_trip_witness :
  wf_obj [("model", "virtio"); ("bridge", "vmbr0"); ("rate", "5")] = true
  ∧ encodable [("model", "virtio"); ("bridge", "vmbr0"); ("rate", "5")] = true
  ∧ parseNetworkInterface
      (buildNetworkInterface
         [("model", "virtio"); ("bridge", "vmbr0"); ("rate", "5")])
    = [("model", "virtio"); ("bridge", "vmbr0"); ("rate", "5")].
Proof.
  split; [reflexivity|]. split; [reflexivity|].
  apply (parse_build_round_trip
           [("model", "virtio"); ("bridge", "vmbr0"); ("rate", "5")]);
    reflexivity.
Defined.

Lemma updateInterfaceRate_encoding_witness :
  is_safe_integer 7 = true
  ∧ is_decimal_string_of 7 "7" = true
  ∧ obj_get "rate" [("model", "virtio"); ("bridge", "vmbr0")] = None
  ∧ buildNetworkInterface
      (updateInterfaceRate [("model", "virtio"); ("bridge", "vmbr0")] 7)
    = "model=virtio,bridge=vmbr0,rate=7".
Proof.
  pose proof (updateInterfaceRate_encoding
                [("model", "virtio"); ("bridge", "vmbr0")] 7 eq_refl)
    as (Hdecimal & Habsent & _).
  split; [reflexivity|]. split; [exact Hdecimal|]. split; [reflexivity|].
  apply (proj1 (proj2 (Habsent eq_refl))); [lia|discriminate].
Defined.

Lemma cronExpression_pieces_witness :
  cronExpression "22:30" = "30 22 * * *"
  ∧ cronExpression "22:30:15" = "30 22 * * *"
  ∧ cronExpression "22" = "undefined 22 * * *".
Proof. apply (cronExpression_pieces "22" "30" "15"); reflexivity. Defined.

Lemma getConfigUrl_inj_witness :
  getConfigUrl pve "n1" "lxc" 106 = "https://pve:8006/api2/json/nodes/n1/lxc/106/config"
  ∧ "n1" = "n1" ∧ "lxc" = "lxc" ∧ 106%Z = 106%Z.
Proof.
  split; [reflexivity|].
  apply (getConfigUrl_inj pve "n1" "lxc" "n1" "lxc" 106 106); reflexivity.
Defined.

Section witnesses.
Local Existing Instance scripted.

Lemma updateConfig_outcome_witness :
  let s := initial [ok_response (JObj [("data", JObj [])])] in
  let config := [("net0", "name=eth0,rate=7")] in
  let resp := response_200 (JObj [("data", JObj [])]) in
  remote (world s) (write_request pve "n1" "lxc" 106 config)
  = (Returned resp, [])
  ∧ json_body resp = Returned (JObj [("data", JObj [])])
  ∧ ok resp = true
  ∧ ∃ b, updateConfig pve "n1" "lxc" 106 config s
         = (Returned b,
            {| world := [];
               trace := trace s
                        ++ [Fetch (write_request pve "n1" "lxc" 106 config)];
               tasks := tasks s |})
         ∧ (b = true
            ↔ ∃ members, JObj [("data", JObj [])] = JObj members
                         ∧ json_member "data" members = Some JNull).
Proof.
  intros s config resp. do 3 (split; [reflexivity|]).
  apply (proj2 (proj2 (proj2 (proj2
           (proj1 (updateConfig_outcome pve "n1") "lxc" 106%Z config s
              resp [] eq_refl))))
           eq_refl (JObj [("data", JObj [])]) eq_refl).
  discriminate.
Defined.


Lemma setNetworkInterface_falsy_interface_witness :
  let s := initial [ok_response (JObj [("data", JObj [("net0", JStr "")])])] in
  let resp := response_200 (JObj [("data", JObj [("net0", JStr "")])]) in
  remote (world s) (read_request pve "n1" "lxc" 106) = (Returned resp, [])
  ∧ ok resp = true
  ∧ json_body resp = Returned (JObj [("data", JObj [("net0", JStr "")])])
  ∧ json_member "data" [("data", JObj [("net0", JStr "")])]
    = Some (JObj [("net0", JStr "")])
  ∧ (json_member "net0" [("net0", JStr "")] = Some (JStr "")
     ∧ truthy (VJson (JStr "")) = false)
  ∧ setNetworkInterface pve "n1" "lxc" 106 "net0" 7 s
    = (Returned false,
       {| world := [];
          trace := trace s ++ [Fetch (read_request pve "n1" "lxc" 106);
                               failure_line "n1" "lxc" 106 "net0"
                                 (interface_not_found "net0")];
          tasks := tasks s |}).
Proof.
  intros s resp. do 4 (split; [reflexivity|]).
  split; [split; reflexivity|].
  apply (setNetworkInterface_falsy_interface pve "n1" "lxc" 106%Z "net0" 7%Z
           s resp [] [("data", JObj [("net0", JStr "")])]
           [("net0", JStr "")]); try reflexivity.
  left. exists (JStr ""). split; reflexivity.
Defined.

Lemma scheduled_callback_applies_rate_witness :
  let node := {| node_type := "lxc"; node_id := 106; node_sched := [] |} in
  let current := JObj [("data", JObj [("net0", JStr "name=eth0,rate=5")])] in
  let s0 := initial [ok_response current; ok_response (JObj [("data", JNull)])] in
  scheduled_callback pve "n1" node "net0" 7 s0
  = (Returned tt,
     {| world := [];
        trace :=
          [Console INFO "Executing scheduled task: n1/lxc/106 net0=7" None;
           Fetch (read_request pve "n1" "lxc" 106);
           Fetch (write_request pve "n1" "lxc" 106
                    [("net0", "name=eth0,rate=7")]);
           Console SUCCESS "n1/lxc/106 net0=7 - Applied successfully" None];
        tasks := [] |}).
Proof.
  intros node current s0.
  apply (scheduled_callback_applies_rate pve "n1" node "net0" 7%Z s0
           (response_200 current)
           [ok_response (JObj [("data", JNull)])]
           [("data", JObj [("net0", JStr "name=eth0,rate=5")])]
           [("net0", JStr "name=eth0,rate=5")]
           "name=eth0,rate=5"
           (response_200 (JObj [("data", JNull)])) []
           [("data", JNull)]);
    try reflexivity.
  discriminate.
Defined.

Lemma start_registers_triggers_witness :
  ∃ s', start (new_Application sample_config) (@initial scripted [])
        = (Returned tt, s')
        ∧ tasks s' = tasks (@initial scripted []) ++ triggers (new_Application sample_config)
        ∧ world s' = world (@initial scripted []).
Proof.
  apply (start_registers_triggers (new_Application sample_config) (@initial scripted [])).
  intros t _. reflexivity.
Defined.

Lemma setNetworkInterface_true_witness :
  let current := JObj [("data", JObj [("net0", JStr "name=eth0,rate=5")])] in
  let s := initial [ok_response current; ok_response (JObj [("data", JNull)])] in
  let s' := {| world := [];
               trace := [Fetch (read_request pve "n1" "lxc" 106);
                         Fetch (write_request pve "n1" "lxc" 106
                                  [("net0", "name=eth0,rate=7")])];
               tasks := [] |} in
  setNetworkInterface pve "n1" "lxc" 106 "net0" 7 s = (Returned true, s')
  ∧ ∃ (answer : outcome response) (w : list (outcome response))
      (raw : string) (resp : response) (members : list (string * json)),
      let config :=
        [("net0", buildNetworkInterface
                    (updateInterfaceRate (parseNetworkInterface raw) 7))] in
      remote (world s) (read_request pve "n1" "lxc" 106) = (answer, w)
      ∧ raw ≠ ""
      ∧ remote w (write_request pve "n1" "lxc" 106 config)
        = (Returned resp, world s')
      ∧ ok resp = true
      ∧ json_body resp = Returned (JObj members)
      ∧ json_member "data" members = Some JNull
      ∧ trace s'
        = trace s ++ [Fetch (read_request pve "n1" "lxc" 106);
                      Fetch (write_request pve "n1" "lxc" 106 config)]
      ∧ tasks s' = tasks s.
Proof.
  intros current s s'. split; [reflexivity|].
  apply (setNetworkInterface_true pve "n1" "lxc" 106%Z "net0" 7%Z s s').
  reflexivity.
Defined.

Lemma setNetworkInterface_unusable_answer_witness :
  let s := initial [ok_response (JObj [("data", JNull)])] in
  let resp := response_200 (JObj [("data", JNull)]) in
  remote (world s) (read_request pve "n1" "lxc" 106) = (Returned resp, [])
  ∧ ok resp = true
  ∧ carries_no_configuration (JObj [("data", JNull)]) = true
  ∧ ∃ message,
      setNetworkInterface pve "n1" "lxc" 106 "net0" 7 s
      = (Returned false,
         {| world := [];
            trace := trace s
                     ++ [Fetch (read_request pve "n1" "lxc" 106);
                         failure_line "n1" "lxc" 106 "net0"
                           (TypeError message)];
            tasks := tasks s |}).
Proof.
  intros s resp. do 3 (split; [reflexivity|]).
  apply (proj1 (proj2 (setNetworkInterface_unusable_answer pve "n1" "lxc"
                         106%Z "net0" 7%Z s resp [] eq_refl eq_refl))
           (JObj [("data", JNull)]));
    reflexivity.
Defined.

Lemma scheduled_callback_hides_credentials_witness :
  let other := {| host := "https://pve:8006"; apiId := "audit@pve!ro";
                  apiSecret := "t" |} in
  let node := {| node_type := "lxc"; node_id := 106; node_sched := [] |} in
  let current := JObj [("data", JObj [("net0", JStr "name=eth0,rate=5")])] in
  let s := initial [ok_response current; ok_response (JObj [("data", JNull)])] in
  headers pve ≠ headers other
  ∧ (scheduled_callback pve "n1" node "net0" 7 s).1
    = (scheduled_callback other "n1" node "net0" 7 s).1
  ∧ world (scheduled_callback pve "n1" node "net0" 7 s).2
    = world (scheduled_callback other "n1" node "net0" 7 s).2
  ∧ console (trace (scheduled_callback pve "n1" node "net0" 7 s).2)
    = console (trace (scheduled_callback other "n1" node "net0" 7 s).2).
Proof.
  intros other node current s. split; [discriminate|].
  apply (scheduled_callback_hides_credentials pve other "n1" node "net0" 7%Z s).
  - reflexivity.
  - intros w method url body. reflexivity.
Defined.

End witnesses.
